(** * Chicken fitness backend: token lifecycle, identity binding, ledger

    A shallow embedding of the request handlers and services of the
    backend, with the properties of its specification stated over it.

    - [Py]      the Python builtins the handlers rely on (truthiness,
                [str.lower], [str.strip], slicing);
    - [Ledger]  [app/services/ledger.py];
    - [Auth]    [app/routers/auth_google.py], [app/routers/auth_refresh.py]
                and [app/models/refresh_token.py];
    - [Race]    the refresh handler cut at its commits, two requests
                interleaved over one store;
    - [Streak]  [calc_current_streak] of [app/services/chicken_status.py].

    A table is the list of its rows in insertion order; [query.first()]
    is the head of the filtered list.  Naive UTC datetimes are integers
    (microseconds since the epoch); Python integers are [Z]. *)

From Stdlib Require Import ZArith String Ascii List Lia Bool.
From stdpp Require Import base decidable option list strings gmap.
Import ListNotations.
Local Open Scope Z_scope.

(** ** Python builtins *)

Module Py.

(** [bool(s)] for a string: the empty string is falsy. *)
Definition truthy_str (s : string) : bool :=
  match s with EmptyString => false | String _ _ => true end.

(** [bool(x)] for [x : str | None]. *)
Definition truthy_opt_str (o : option string) : bool :=
  match o with None => false | Some s => truthy_str s end.

(** [bool(x)] for an optional object whose class defines neither
    [__bool__] nor [__len__] (ORM rows, [datetime]): only [None] is falsy. *)
Definition truthy_obj {A} (o : option A) : bool :=
  match o with None => false | Some _ => true end.

(** [x or d] on integers-or-None: [0] and [None] are falsy. *)
Definition or_int (o : option Z) (d : Z) : Z :=
  match o with
  | None => d
  | Some v => if v =? 0 then d else v
  end.

(** Characters are code points below 256.  [str.lower] maps A-Z and the
    Latin-1 capitals (0xC0-0xDE without the multiplication sign 0xD7)
    to the letter 32 places further. *)
Definition lower_char (c : ascii) : ascii :=
  let n := nat_of_ascii c in
  if ((65 <=? n) && (n <=? 90))%nat then ascii_of_nat (n + 32)
  else if ((192 <=? n) && (n <=? 222) && negb (n =? 215))%nat
       then ascii_of_nat (n + 32)
  else c.

Fixpoint lower (s : string) : string :=
  match s with
  | EmptyString => EmptyString
  | String c s' => String (lower_char c) (lower s')
  end.

(** [str.isspace] on one code point below 256. *)
Definition isspace (c : ascii) : bool :=
  let n := nat_of_ascii c in
  (((9 <=? n) && (n <=? 13)) || ((28 <=? n) && (n <=? 32))
   || (n =? 133) || (n =? 160))%nat.

Fixpoint lstrip (s : string) : string :=
  match s with
  | EmptyString => EmptyString
  | String c s' => if isspace c then lstrip s' else s
  end.

Fixpoint rstrip (s : string) : string :=
  match s with
  | EmptyString => EmptyString
  | String c s' =>
      match rstrip s' with
      | EmptyString => if isspace c then EmptyString else String c EmptyString
      | r => String c r
      end
  end.

(** [s.strip()] *)
Definition strip (s : string) : string := rstrip (lstrip s).

(** [s[:n]] for [n >= 0]. *)
Definition slice_to (n : nat) (s : string) : string := substring 0 n s.

End Py.

(** ** The coin ledger: [app/services/ledger.py] *)

Module Ledger.

(** A row of [coins_ledger], with the columns the service writes. *)
Record CoinsLedger := mkCoinsLedger {
  user_id : Z;
  delta : Z;
  source : string;
  ref_id : option Z;
  idempotency_key : option string;
  created_at : Z
}.

Abbreviation Table := (list CoinsLedger).

(** [filter(user_id == u, idempotency_key == k).first()] *)
Definition first_by_key (db : Table) (u : Z) (k : string) : option CoinsLedger :=
  head (filter (fun r => user_id r = u /\ idempotency_key r = Some k) db).

(** [filter(user_id == u, source == s, ref_id == r).first()] *)
Definition first_by_ref (db : Table) (u : Z) (s : string) (r : Z)
  : option CoinsLedger :=
  head (filter (fun row => user_id row = u /\ source row = s /\ ref_id row = Some r) db).

(** SQL [SUM] over the selected rows: NULL when there is none. *)
Definition sql_sum (l : list Z) : option Z :=
  match l with
  | [] => None
  | _ => Some (fold_left Z.add l 0)
  end.

(** SQL [COALESCE(x, d)]. *)
Definition coalesce (x : option Z) (d : Z) : Z :=
  match x with Some v => v | None => d end.

(** [get_coins_balance]: the aggregate query yields one row, [scalar()]
    its only column, then [int(total or 0)]. *)
Definition get_coins_balance (db : Table) (uid : Z) : Z :=
  let total :=
    Some (coalesce (sql_sum (delta <$> filter (fun r => user_id r = uid) db)) 0) in
  Py.or_int total 0.

(** [add_ledger_entry]: the table after the call and the returned delta.
    [now] is the [datetime.utcnow()] read for [created_at]. *)
Definition add_ledger_entry (db : Table) (now : Z)
    (uid : Z) (d : Z) (src : string) (ref : option Z) (key : option string)
  : Table * Z :=
  let exists_ : option CoinsLedger := None in
  let exists_ :=
    match key with
    | Some k => if Py.truthy_str k then first_by_key db uid k else exists_
    | None => exists_
    end in
  let exists_ :=
    match ref with
    | Some r =>
        if negb (Py.truthy_obj exists_) then first_by_ref db uid src r else exists_
    | None => exists_
    end in
  match exists_ with
  | Some row => (db, delta row)
  | None =>
      let row := mkCoinsLedger uid d src ref key now in
      (db ++ [row], d)
  end.

(** The balance in the spec's words: the sum of the deltas of the
    account's rows. *)
Fixpoint sum_of_deltas (uid : Z) (db : Table) : Z :=
  match db with
  | [] => 0
  | r :: rest =>
      if decide (user_id r = uid) then delta r + sum_of_deltas uid rest
      else sum_of_deltas uid rest
  end.

(** The rows of a (account, source, ref_id) dedup key. *)
Definition rows_of_ref (db : Table) (u : Z) (s : string) (r : Z) : Table :=
  filter (fun row => user_id row = u /\ source row = s /\ ref_id row = Some r) db.

(** The rows of a (account, idempotency_key) dedup key. *)
Definition rows_of_key (db : Table) (u : Z) (k : string) : Table :=
  filter (fun r => user_id r = u /\ idempotency_key r = Some k) db.

(** The dedup discipline of the table: per account, at most one row for
    a non-empty idempotency key and at most one for a (source, ref_id). *)
Definition dedup_unique (db : Table) : Prop :=
  (forall u k, Py.truthy_str k = true -> (length (rows_of_key db u k) <= 1)%nat) /\
  (forall u s r, (length (rows_of_ref db u s r) <= 1)%nat).

(** The arguments of one call of [add_ledger_entry], with the clock it
    reads, and the ledger a sequence of calls builds. *)
Record entry := mkEntry {
  entry_now : Z;
  entry_user_id : Z;
  entry_delta : Z;
  entry_source : string;
  entry_ref_id : option Z;
  entry_idempotency_key : option string
}.

Definition add_entry (db : Table) (e : entry) : Table :=
  (add_ledger_entry db (entry_now e) (entry_user_id e) (entry_delta e)
                    (entry_source e) (entry_ref_id e)
                    (entry_idempotency_key e)).1.

Definition add_entries (db : Table) (es : list entry) : Table :=
  fold_left add_entry es db.

End Ledger.

(** ** Accounts and refresh tokens: the auth routers *)

Module Auth.

(** Exceptions a handler can end with.  [HTTPException] is the one that
    reaches the client; [KeyError] is a failed [info["..."]] lookup. *)
Inductive exn :=
| HTTPException (status_code : Z) (detail : string)
| KeyError (key : string).

Inductive outcome (A : Type) :=
| Return (a : A)
| Raise (e : exn).
Arguments Return {A} a.
Arguments Raise {A} e.

Definition bind {A B} (m : outcome A) (k : A -> outcome B) : outcome B :=
  match m with
  | Return a => k a
  | Raise e => Raise e
  end.

#[export] Instance outcome_bind : MBind outcome := fun A B k m => bind m k.

Definition HTTP_401_UNAUTHORIZED : Z := 401.
Definition HTTP_409_CONFLICT : Z := 409.

(** Modelled from the spec: the [users] table of [app/models/user.py],
    with the columns the routers read and write (section 3, Account). *)
Module User.
Record t := mk {
  id : Z;
  status : string;
  auth_provider : option string;
  google_sub : option string;
  email : option string;
  device_id : option string;
  created_at : Z;
  last_login_at : option Z
}.
End User.

(** [app/models/refresh_token.py] *)
Module RefreshToken.
Record t := mk {
  id : Z;
  user_id : Z;
  token_hash : string;
  expires_at : Z;
  revoked_at : option Z;
  created_at : Z;
  created_ip : option string;
  created_user_agent : option string
}.
End RefreshToken.

(** The committed store: both tables and their autoincrement counters. *)
Record DB := mkDB {
  users : list User.t;
  refresh_tokens : list RefreshToken.t;
  next_user_id : Z;
  next_token_id : Z
}.

(** The claims dictionary of a Google id token: a missing key is [None]. *)
Record Claims := mkClaims {
  sub : option string;
  email : option string;
  email_verified : option bool
}.

(** What [app.core.security] provides deterministically. *)
Class Security := {
  hash_refresh_token : string -> string;
  (** [create_access_token(user_id, is_guest)]: token, ttl, expiry. *)
  create_access_token : Z -> bool -> string * Z * Z
}.

(** [google.oauth2.id_token.verify_oauth2_token] with the configured
    client id: the claims, or [None] when it raises. *)
Class GoogleVerifier := {
  verify_oauth2_token : string -> option Claims
}.

(** What one request reads from its surroundings: the clock, the random
    secret of [generate_refresh_token()] and the pair returned by
    [refresh_token_expiry()]. *)
Record Env := mkEnv {
  now : Z;
  generate_refresh_token : string;
  refresh_token_expiry : Z * Z
}.

(** The parts of [fastapi.Request] the handlers read. *)
Record Request := mkRequest {
  client_host : option string;
  user_agent : option string
}.

Record GoogleAuthIn := mkGoogleAuthIn {
  id_token : string;
  payload_device_id : option string
}.

Record GoogleAuthOut := mkGoogleAuthOut {
  out_user_id : Z;
  out_access_token : string;
  out_expires_in : Z;
  out_is_guest : bool;
  out_refresh_token : string;
  out_refresh_expires_in : Z
}.

Record RefreshIn := mkRefreshIn {
  refresh_token_in : string
}.

Record RefreshOut := mkRefreshOut {
  access_token : string;
  access_token_expires_in : Z;
  refresh_token_out : string;
  refresh_token_expires_in : Z
}.

(** *** Queries *)

Definition first_user_by_sub (db : DB) (s : string) : option User.t :=
  head (filter (fun u => User.google_sub u = Some s) (users db)).

Definition first_guest_by_device (db : DB) (d : string) : option User.t :=
  head (filter (fun u => User.device_id u = Some d /\ User.status u = "guest"%string)
               (users db)).

Definition first_email_owner (db : DB) (e : string) (guest_id : Z)
  : option User.t :=
  head (filter (fun u => User.email u = Some e /\ User.id u <> guest_id) (users db)).

Definition first_user_by_id (db : DB) (i : Z) : option User.t :=
  head (filter (fun u => User.id u = i) (users db)).

Definition first_token_by_hash (db : DB) (h : string) : option RefreshToken.t :=
  head (filter (fun r => RefreshToken.token_hash r = h) (refresh_tokens db)).

(** *** Writes: an attribute assignment on a loaded row followed by
    [commit()] is an UPDATE of the row with that primary key. *)

Definition update_user (db : DB) (i : Z) (f : User.t -> User.t) : DB :=
  mkDB ((fun u => if decide (User.id u = i) then f u else u) <$> users db)
       (refresh_tokens db) (next_user_id db) (next_token_id db).

(** [db.add(user); db.commit(); db.refresh(user)]: the row gets the next
    id; returns the store and that id. *)
Definition add_user (db : DB) (mk : Z -> User.t) : DB * Z :=
  let i := next_user_id db in
  (mkDB (users db ++ [mk i]) (refresh_tokens db) (i + 1) (next_token_id db), i).

Definition update_token (db : DB) (i : Z) (f : RefreshToken.t -> RefreshToken.t)
  : DB :=
  mkDB (users db)
       ((fun r => if decide (RefreshToken.id r = i) then f r else r)
          <$> refresh_tokens db)
       (next_user_id db) (next_token_id db).

Definition add_token (db : DB) (mk : Z -> RefreshToken.t) : DB :=
  let i := next_token_id db in
  mkDB (users db) (refresh_tokens db ++ [mk i]) (next_user_id db) (i + 1).

Definition set_revoked_at (v : option Z) (r : RefreshToken.t) : RefreshToken.t :=
  RefreshToken.mk (RefreshToken.id r) (RefreshToken.user_id r)
    (RefreshToken.token_hash r) (RefreshToken.expires_at r) v
    (RefreshToken.created_at r) (RefreshToken.created_ip r)
    (RefreshToken.created_user_agent r).

(** [request.headers.get("user-agent", "")[:255]] *)
Definition request_ua (request : Request) : string :=
  Py.slice_to 255 (default EmptyString (user_agent request)).

Section Handlers.
Context `{Security} `{GoogleVerifier}.

(** [verify_google_token] *)
Definition verify_google_token (token : string) : outcome Claims :=
  match verify_oauth2_token token with
  | None => Raise (HTTPException HTTP_401_UNAUTHORIZED "Invalid Google id_token")
  | Some info =>
      if negb (Py.truthy_opt_str (email info)) then
        Raise (HTTPException HTTP_401_UNAUTHORIZED "Google token missing email")
      else if bool_decide (email_verified info = Some false) then
        Raise (HTTPException HTTP_401_UNAUTHORIZED "Google email not verified")
      else if negb (Py.truthy_opt_str (sub info)) then
        Raise (HTTPException HTTP_401_UNAUTHORIZED "Google token missing sub")
      else Return info
  end.

(** [info[key]] *)
Definition getitem (key : string) (v : option string) : outcome string :=
  match v with
  | Some s => Return s
  | None => Raise (KeyError key)
  end.

(** The guest branch of [google_auth]: the assignments to [guest]. *)
Definition upgrade_guest (google_sub email : string) (now : Z) (g : User.t)
  : User.t :=
  User.mk (User.id g) "user" (Some "google"%string) (Some google_sub) (Some email)
          (User.device_id g) (User.created_at g) (Some now).

(** The already-bound branch of [google_auth]: the assignments to [user]. *)
Definition touch_user (email : string) (now : Z) (u : User.t) : User.t :=
  User.mk (User.id u)
    (if bool_decide (User.status u <> "user"%string) then "user"%string
     else User.status u)
    (if bool_decide (User.auth_provider u <> Some "google"%string)
     then Some "google"%string else User.auth_provider u)
    (User.google_sub u)
    (if negb (Py.truthy_opt_str (User.email u)) then Some email else User.email u)
    (User.device_id u) (User.created_at u) (Some now).

(** [User(status="user", auth_provider="google", ...)] *)
Definition new_user (google_sub email : string) (device : option string)
    (now : Z) (i : Z) : User.t :=
  User.mk i "user" (Some "google"%string) (Some google_sub) (Some email)
          device now (Some now).

(** [google_auth], steps 1 and 2: find, upgrade or create the account and
    commit; yields the store and [user.id]. *)
Definition bind_account (db : DB) (payload : GoogleAuthIn) (now_ : Z)
    (google_sub email_ : string) : outcome (DB * Z) :=
  match first_user_by_sub db google_sub with
  | None =>
      if Py.truthy_opt_str (payload_device_id payload) then
        let d := default EmptyString (payload_device_id payload) in
        match first_guest_by_device db d with
        | Some guest =>
            let email_owner := first_email_owner db email_ (User.id guest) in
            match email_owner with
            | Some o =>
                if bool_decide (User.google_sub o <> Some google_sub) then
                  Raise (HTTPException HTTP_409_CONFLICT
                           "Email already in use by another account")
                else
                  Return (update_user db (User.id guest)
                            (upgrade_guest google_sub email_ now_),
                          User.id guest)
            | None =>
                Return (update_user db (User.id guest)
                          (upgrade_guest google_sub email_ now_),
                        User.id guest)
            end
        | None =>
            Return (add_user db
                      (new_user google_sub email_ (payload_device_id payload) now_))
        end
      else
        Return (add_user db (new_user google_sub email_ None now_))
  | Some user =>
      Return (update_user db (User.id user) (touch_user email_ now_), User.id user)
  end.

(** [google_auth], steps 3 and 4: the access token, the refresh token row
    and the response. *)
Definition issue_session (db : DB) (uid : Z) (request : Request) (env : Env)
  : DB * GoogleAuthOut :=
  let '(access_token, expires_in, _) := create_access_token uid false in
  let rt_plain := generate_refresh_token env in
  let rt_hash := hash_refresh_token rt_plain in
  let '(rt_expires_at, rt_expires_in) := refresh_token_expiry env in
  let rt_row := fun i =>
    RefreshToken.mk i uid rt_hash rt_expires_at None (now env)
                    (client_host request) (Some (request_ua request)) in
  (add_token db rt_row,
   mkGoogleAuthOut uid access_token expires_in false rt_plain rt_expires_in).

(** [POST /auth/google].  An exception leaves the committed store as it
    was when it was raised. *)
Definition google_auth (db : DB) (payload : GoogleAuthIn) (request : Request)
    (env : Env) : DB * outcome GoogleAuthOut :=
  let bound :=
    info ← verify_google_token (id_token payload);
    google_sub ← getitem "sub" (sub info);
    email_raw ← getitem "email" (email info);
    bind_account db payload (now env) google_sub (Py.strip (Py.lower email_raw)) in
  match bound with
  | Raise e => (db, Raise e)
  | Return (db1, uid) =>
      let '(db2, out) := issue_session db1 uid request env in
      (db2, Return out)
  end.

(** [refresh_token], up to the two checks: the matched row and its owner. *)
Definition refresh_lookup (db : DB) (payload : RefreshIn) (now_ : Z)
  : outcome (RefreshToken.t * User.t) :=
  let old_hash := hash_refresh_token (refresh_token_in payload) in
  match first_token_by_hash db old_hash with
  | None => Raise (HTTPException HTTP_401_UNAUTHORIZED "Invalid refresh token")
  | Some old_rt =>
      if Py.truthy_obj (RefreshToken.revoked_at old_rt)
         || (RefreshToken.expires_at old_rt <=? now_)
      then Raise (HTTPException HTTP_401_UNAUTHORIZED "Invalid refresh token")
      else
        match first_user_by_id db (RefreshToken.user_id old_rt) with
        | None => Raise (HTTPException HTTP_401_UNAUTHORIZED "User not found")
        | Some user => Return (old_rt, user)
        end
  end.

(** [old_rt.revoked_at = now; db.commit()] *)
Definition refresh_revoke (db : DB) (old_rt : RefreshToken.t) (now_ : Z) : DB :=
  update_token db (RefreshToken.id old_rt) (set_revoked_at (Some now_)).

(** The new row, its commit, the access token and the response. *)
Definition refresh_issue (db : DB) (user : User.t) (request : Request)
    (env : Env) : DB * RefreshOut :=
  let is_guest := bool_decide (User.status user = "guest"%string) in
  let new_rt_plain := generate_refresh_token env in
  let new_rt_hash := hash_refresh_token new_rt_plain in
  let '(new_expires_at, new_expires_in) := refresh_token_expiry env in
  let new_rt := fun i =>
    RefreshToken.mk i (User.id user) new_rt_hash new_expires_at None (now env)
                    (client_host request) (Some (request_ua request)) in
  let db' := add_token db new_rt in
  let '(at_, at_expires_in, _) := create_access_token (User.id user) is_guest in
  (db', mkRefreshOut at_ at_expires_in new_rt_plain new_expires_in).

(** [POST /refresh] *)
Definition refresh_token (db : DB) (payload : RefreshIn) (request : Request)
    (env : Env) : DB * outcome RefreshOut :=
  match refresh_lookup db payload (now env) with
  | Raise e => (db, Raise e)
  | Return (old_rt, user) =>
      let db1 := refresh_revoke db old_rt (now env) in
      let '(db2, out) := refresh_issue db1 user request env in
      (db2, Return out)
  end.

(** The row [issue_session] and [refresh_issue] insert. *)
Definition issued_row (db : DB) (uid : Z) (request : Request) (env : Env)
  : RefreshToken.t :=
  RefreshToken.mk (next_token_id db) uid
    (hash_refresh_token (generate_refresh_token env))
    (refresh_token_expiry env).1 None (now env)
    (client_host request) (Some (request_ua request)).

(** A freshly issued token: its row is the first of its hash, active,
    and its owner exists. *)
Definition freshly_issued (db1 : DB) (plain : string) (expires : Z) : Prop :=
  exists row,
    first_token_by_hash db1 (hash_refresh_token plain) = Some row /\
    RefreshToken.revoked_at row = None /\
    RefreshToken.expires_at row = expires /\
    is_Some (first_user_by_id db1 (RefreshToken.user_id row)).

(** A request to either endpoint, and the store a sequence of requests
    leaves behind. *)
Inductive call :=
| PostAuthGoogle (payload : GoogleAuthIn) (request : Request) (env : Env)
| PostRefresh (payload : RefreshIn) (request : Request) (env : Env).

Definition serve (db : DB) (c : call) : DB :=
  match c with
  | PostAuthGoogle payload request env => (google_auth db payload request env).1
  | PostRefresh payload request env => (refresh_token db payload request env).1
  end.

Definition serve_all (db : DB) (cs : list call) : DB := fold_left serve cs db.

End Handlers.

(** The row update of a revocation, on the whole table. *)
Definition revoke_row (i now_ : Z) (r : RefreshToken.t) : RefreshToken.t :=
  if decide (RefreshToken.id r = i) then set_revoked_at (Some now_) r else r.

(** The first row with hash [h] is revoked. *)
Definition first_revoked (tokens : list RefreshToken.t) (h : string) : Prop :=
  exists rt, head (filter (fun r => RefreshToken.token_hash r = h) tokens) = Some rt
             /\ RefreshToken.revoked_at rt <> None.

(** The one condition [POST /refresh] reports for a bad token. *)
Definition InvalidCredential : exn :=
  HTTPException HTTP_401_UNAUTHORIZED "Invalid refresh token".

(** The condition of a failed identity assertion: any 401 of
    [verify_google_token]. *)
Definition UnverifiedIdentity (e : exn) : Prop :=
  exists detail, e = HTTPException HTTP_401_UNAUTHORIZED detail.

Definition IdentityConflict : exn :=
  HTTPException HTTP_409_CONFLICT "Email already in use by another account".

(** A token is usable, in the spec's words: not revoked and its expiry
    in the future. *)
Definition usable (now_ : Z) (r : RefreshToken.t) : Prop :=
  RefreshToken.revoked_at r = None /\ now_ < RefreshToken.expires_at r.

(** Primary keys: in each table the ids are distinct and below the id
    the table hands out next. *)
Definition primary_keys (db : DB) : Prop :=
  NoDup (User.id <$> users db) /\
  Forall (fun u => User.id u < next_user_id db) (users db) /\
  NoDup (RefreshToken.id <$> refresh_tokens db) /\
  Forall (fun r => RefreshToken.id r < next_token_id db) (refresh_tokens db).

(** No two accounts are bound to the same Google subject id. *)
Definition unique_subs (db : DB) : Prop :=
  NoDup (omap User.google_sub (users db)).

(** A token row as a later store still holds it: the written-once
    columns are the same, and a revocation is not undone. *)
Definition token_kept (r r' : RefreshToken.t) : Prop :=
  RefreshToken.id r' = RefreshToken.id r /\
  RefreshToken.user_id r' = RefreshToken.user_id r /\
  RefreshToken.token_hash r' = RefreshToken.token_hash r /\
  RefreshToken.expires_at r' = RefreshToken.expires_at r /\
  RefreshToken.created_at r' = RefreshToken.created_at r /\
  (RefreshToken.revoked_at r <> None -> RefreshToken.revoked_at r' <> None).

(** The [created_user_agent] column is a [String(255)]. *)
Definition user_agents_fit (db : DB) : Prop :=
  Forall (fun r => forall ua, RefreshToken.created_user_agent r = Some ua ->
                              (String.length ua <= 255)%nat)
         (refresh_tokens db).

End Auth.

(** ** Two refresh requests over one store *)

Module Race.
Import Auth.

(** Each request runs in its own session on the one database.  A query
    sees what is committed; [old_rt.revoked_at = now; db.commit()] is an
    UPDATE of the row with that primary key, whatever its [revoked_at] is
    by then; every query or commit is one atomic step.

    A request in flight, cut where the handler talks to the store: before
    its lookup, after its checks, after the commit of the revocation,
    and finished. *)
Inductive thread :=
| Start (payload : RefreshIn) (request : Request) (env : Env)
| Checked (old_rt : RefreshToken.t) (user : User.t) (request : Request) (env : Env)
| Revoked (user : User.t) (request : Request) (env : Env)
| Done (r : outcome RefreshOut).

Inductive tid := A | B.

Record config := mkConfig {
  store : DB;
  thread_a : thread;
  thread_b : thread
}.

Section Threads.
Context `{Security}.

(** One atomic step of a request on the committed store. *)
Definition step (db : DB) (t : thread) : DB * thread :=
  match t with
  | Start payload request env =>
      match refresh_lookup db payload (now env) with
      | Raise e => (db, Done (Raise e))
      | Return (old_rt, user) => (db, Checked old_rt user request env)
      end
  | Checked old_rt user request env =>
      (refresh_revoke db old_rt (now env), Revoked user request env)
  | Revoked user request env =>
      let '(db', out) := refresh_issue db user request env in
      (db', Done (Return out))
  | Done r => (db, Done r)
  end.

Definition step_config (c : config) (i : tid) : config :=
  match i with
  | A => let '(db, t) := step (store c) (thread_a c) in mkConfig db t (thread_b c)
  | B => let '(db, t) := step (store c) (thread_b c) in mkConfig db (thread_a c) t
  end.

(** Run a schedule: the list of the requests that step, in order. *)
Definition run (c : config) (schedule : list tid) : config :=
  fold_left step_config schedule c.

End Threads.

Definition succeeded (t : thread) : Prop :=
  exists out, t = Done (Return out).

Definition rejected (t : thread) : Prop :=
  t = Done (Raise InvalidCredential).

(** The other request of a pair, and a configuration seen from it. *)
Definition other (i : tid) : tid :=
  match i with A => B | B => A end.

Definition swap (c : config) : config :=
  mkConfig (store c) (thread_b c) (thread_a c).

Section Invariant.
Context `{Security}.

(** Request A has committed the revocation of the row of hash [h]
    (or has finished with a new pair); request B presents a plaintext of
    that hash and has not looked it up yet, or has been refused. *)
Definition a_revoked_first (h : string) (c : config) : Prop :=
  first_revoked (refresh_tokens (store c)) h /\
  ((exists user request env, thread_a c = Revoked user request env)
   \/ succeeded (thread_a c)) /\
  ((exists payload request env,
       thread_b c = Start payload request env /\
       hash_refresh_token (refresh_token_in payload) = h)
   \/ rejected (thread_b c)).

End Invariant.

End Race.

(** ** The activity streak: [calc_current_streak] *)

Module Streak.

(** A [datetime.date] as its proleptic Gregorian ordinal
    ([date.toordinal()]): [date.min] is 1, [date.max] is 3652059. *)
Definition date := positive.

Definition date_min : date := 1%positive.
Definition date_max : date := 3652059%positive.

Inductive exn := OverflowError.

Inductive outcome (A : Type) :=
| Return (a : A)
| Raise (e : exn).
Arguments Return {A} a.
Arguments Raise {A} e.

(** [d - timedelta(days=1)]: out of range below [date.min]. *)
Definition minus_one_day (d : date) : outcome date :=
  if decide (d = date_min) then Raise OverflowError else Return (Pos.pred d).

(** The [while] loop; [None] when the fuel runs out. *)
Fixpoint while_loop (fuel : nat) (activity_dates : gset date)
    (cur : date) (streak : Z) : option (outcome Z) :=
  match fuel with
  | O => None
  | S fuel' =>
      if decide (cur ∈ activity_dates) then
        match minus_one_day cur with
        | Raise e => Some (Raise e)
        | Return cur' => while_loop fuel' activity_dates cur' (streak + 1)
        end
      else Some (Return streak)
  end.

(** [calc_current_streak]; [today] is [datetime.utcnow().date()].  The
    loop is given one unit of fuel per date from [date.min] to [today]. *)
Definition calc_current_streak (today : date) (activity_dates : gset date)
  : option (outcome Z) :=
  if decide (activity_dates = ∅) then Some (Return 0)
  else while_loop (Pos.to_nat today) activity_dates today 0.

(** [today - timedelta(days=i)] as an ordinal, which may leave the range
    of [date]. *)
Definition days_before (today : date) (i : Z) : Z := Z.pos today - i.

(** Membership of an ordinal that need not be a date. *)
Definition active (activity_dates : gset date) (o : Z) : Prop :=
  exists d : date, Z.pos d = o /\ d ∈ activity_dates.

(** The streak in the claim's words: [n] days up to today are active and
    the day before them is not. *)
Definition is_streak (today : date) (activity_dates : gset date) (n : Z) : Prop :=
  0 <= n /\
  (forall i, 0 <= i < n -> active activity_dates (days_before today i)) /\
  ~ active activity_dates (days_before today n).

(** Every date from [date.min] to [today]. *)
Definition all_dates_to (today : date) : gset date :=
  list_to_set (Pos.of_nat <$> seq 1 (Pos.to_nat today)).

End Streak.

(** ** The pet status: the rest of [app/services/chicken_status.py] *)

Module Status.
Import Streak.

(** A naive [datetime] as the microseconds since 0001-01-01T00:00:00,
    the first instant of [date.min]. *)
Definition datetime := N.

Definition day_us : N := 86400000000%N.

(** [datetime.max], the last microsecond of 9999-12-31. *)
Definition datetime_max : datetime := (3652059 * day_us - 1)%N.

(** [dt.date()] *)
Definition date_of (t : datetime) : date := N.succ_pos (t / day_us).

(** [datetime(d.year, d.month, d.day)] *)
Definition midnight (d : date) : datetime := ((N.pos d - 1) * day_us)%N.

(** [d.weekday()]: Monday is 0; [date.min] is a Monday. *)
Definition weekday (d : date) : Z := (Z.pos d + 6) mod 7.

(** [d - timedelta(days=n)] *)
Definition date_minus_days (d : date) (n : Z) : outcome date :=
  if Z.pos d - n <? 1 then Raise OverflowError
  else if Z.pos date_max <? Z.pos d - n then Raise OverflowError
  else Return (Z.to_pos (Z.pos d - n)).

(** [t + timedelta(days=n)] *)
Definition datetime_plus_days (t : datetime) (n : N) : outcome datetime :=
  if (datetime_max <? t + n * day_us)%N then Raise OverflowError
  else Return (t + n * day_us)%N.

(** [get_week_range_utc]; [now] is [datetime.utcnow()]. *)
Definition get_week_range_utc (now : datetime) : outcome (datetime * datetime) :=
  let today := date_of now in
  match date_minus_days today (weekday today) with
  | Raise e => Raise e
  | Return monday =>
      let week_start := midnight monday in
      match datetime_plus_days week_start 7 with
      | Raise e => Raise e
      | Return week_end => Return (week_start, week_end)
      end
  end.

(** The enums of [app.models.economy], of which the service names these
    members; [CheckinStatus.awarded] may not exist. *)
Class Economy := {
  CheckinStatus : Type;
  CheckinStatus_eq_dec :: EqDecision CheckinStatus;
  CheckinStatus_verified : CheckinStatus;
  CheckinStatus_awarded : option CheckinStatus;
  RunStatus : Type;
  RunStatus_eq_dec :: EqDecision RunStatus;
  RunStatus_awarded : RunStatus
}.

Section Tables.
Context `{Economy}.

(** The columns of [checkins] and [runs] the service reads. *)
Record Checkin := mkCheckin {
  checkin_user_id : Z;
  checkin_status : CheckinStatus;
  started_at : option datetime;
  ended_at : option datetime
}.

Record Run := mkRun {
  run_user_id : Z;
  run_status : RunStatus;
  created_at : option datetime
}.

Record DB := mkDB {
  checkins : list Checkin;
  runs : list Run
}.

(** [_valid_checkin_statuses] *)
Definition _valid_checkin_statuses : list CheckinStatus :=
  let statuses := [CheckinStatus_verified] in
  match CheckinStatus_awarded with
  | Some awarded => statuses ++ [awarded]
  | None => statuses
  end.

(** [column >= lo] and [column < hi] on a nullable column. *)
Definition within (lo hi : datetime) (column : option datetime) : Prop :=
  match column with
  | Some t => (lo <= t)%N /\ (t < hi)%N
  | None => False
  end.

#[export] Instance within_dec lo hi column : Decision (within lo hi column).
Proof. destruct column; simpl; apply _. Defined.

(** [get_weekly_activity_count]; [now] is the clock [get_week_range_utc]
    reads. *)
Definition get_weekly_activity_count (db : DB) (now : datetime) (user_id : Z)
  : outcome Z :=
  match get_week_range_utc now with
  | Raise e => Raise e
  | Return (week_start, week_end) =>
      let checkin_count :=
        length (filter (fun c => checkin_user_id c = user_id /\
                                 checkin_status c ∈ _valid_checkin_statuses /\
                                 within week_start week_end (started_at c))
                       (checkins db)) in
      let run_count :=
        length (filter (fun r => run_user_id r = user_id /\
                                 run_status r = RunStatus_awarded /\
                                 within week_start week_end (created_at r))
                       (runs db)) in
      Return (Z.of_nat checkin_count + Z.of_nat run_count)
  end.

Definition WEAK_AFTER_DAYS : Z := 4.
Definition STRONG_WEEKLY_COUNT : Z := 3.

(** SQL [MAX] over the selected values: NULL when there is none. *)
Definition sql_max (l : list datetime) : option datetime :=
  match l with
  | [] => None
  | t :: rest => Some (fold_left N.max rest t)
  end.

(** [max(candidates) if candidates else None] *)
Definition py_max (candidates : list datetime) : option datetime :=
  match candidates with
  | [] => None
  | t :: rest => Some (fold_left N.max rest t)
  end.

(** [get_last_activity_at] *)
Definition get_last_activity_at (db : DB) (user_id : Z) : option datetime :=
  let last_checkin :=
    sql_max (omap ended_at
               (filter (fun c => checkin_user_id c = user_id /\
                                 checkin_status c ∈ _valid_checkin_statuses /\
                                 ended_at c <> None)
                       (checkins db))) in
  let last_run :=
    sql_max (omap created_at
               (filter (fun r => run_user_id r = user_id /\
                                 run_status r = RunStatus_awarded)
                       (runs db))) in
  let candidates := omap id [last_checkin; last_run] in
  py_max candidates.

(** [calc_chicken_status]; [now] is its own reading of the clock and
    [now_week] the later one inside [get_weekly_activity_count]. *)
Definition calc_chicken_status (db : DB) (now now_week : datetime) (user_id : Z)
  : outcome string :=
  match get_last_activity_at db user_id with
  | None => Return "normal"%string
  | Some last_activity_at =>
      let days_since :=
        Z.pos (date_of now) - Z.pos (date_of last_activity_at) in
      if WEAK_AFTER_DAYS <=? days_since then Return "weak"%string
      else
        match get_weekly_activity_count db now_week user_id with
        | Raise e => Raise e
        | Return weekly_count =>
            if STRONG_WEEKLY_COUNT <=? weekly_count then Return "strong"%string
            else Return "normal"%string
        end
  end.

(** [get_all_activity_dates] *)
Definition get_all_activity_dates (db : DB) (user_id : Z) : gset date :=
  let q1 :=
    started_at <$> filter (fun c => checkin_user_id c = user_id /\
                                    checkin_status c ∈ _valid_checkin_statuses)
                          (checkins db) in
  let q2 :=
    created_at <$> filter (fun r => run_user_id r = user_id /\
                                    run_status r = RunStatus_awarded)
                          (runs db) in
  let dates : gset date := ∅ in
  let dates := fold_left (fun acc dt => match dt with
                                        | Some t => acc ∪ {[ date_of t ]}
                                        | None => acc
                                        end) q1 dates in
  let dates := fold_left (fun acc dt => match dt with
                                        | Some t => acc ∪ {[ date_of t ]}
                                        | None => acc
                                        end) q2 dates in
  dates.

(** A timestamp that [get_last_activity_at] takes into account. *)
Definition activity_time (db : DB) (user_id : Z) (t : datetime) : Prop :=
  (exists c, c ∈ checkins db /\ checkin_user_id c = user_id /\
             checkin_status c ∈ _valid_checkin_statuses /\ ended_at c = Some t)
  \/ (exists r, r ∈ runs db /\ run_user_id r = user_id /\
                run_status r = RunStatus_awarded /\ created_at r = Some t).

(** A timestamp whose date [get_all_activity_dates] collects. *)
Definition activity_start (db : DB) (user_id : Z) (t : datetime) : Prop :=
  (exists c, c ∈ checkins db /\ checkin_user_id c = user_id /\
             checkin_status c ∈ _valid_checkin_statuses /\ started_at c = Some t)
  \/ (exists r, r ∈ runs db /\ run_user_id r = user_id /\
                run_status r = RunStatus_awarded /\ created_at r = Some t).

End Tables.

End Status.

(** ** Sample collaborators and stores for the examples *)

Module Sample.
Import Auth.

(** A stand-in for the SHA-256 digest: injective, which is all the
    examples need. *)
#[export] Instance security : Security := {|
  hash_refresh_token := fun s => ("h:" ++ s)%string;
  create_access_token := fun uid is_guest => ("at"%string, 900, 0)
|}.

(** A verifier that knows four assertions. *)
#[export] Instance verifier : GoogleVerifier := {|
  verify_oauth2_token := fun token =>
    if bool_decide (token = "token-g1"%string) then
      Some (mkClaims (Some "g1"%string) (Some "a@x.com"%string) (Some true))
    else if bool_decide (token = "token-g2"%string) then
      Some (mkClaims (Some "g2"%string) (Some "a@x.com"%string) (Some true))
    else if bool_decide (token = "token-g3-unstated"%string) then
      Some (mkClaims (Some "g3"%string) (Some "c@x.com"%string) None)
    else if bool_decide (token = "token-g4-unverified"%string) then
      Some (mkClaims (Some "g4"%string) (Some "d@x.com"%string) (Some false))
    else None
|}.

Definition guest1 : User.t :=
  User.mk 1 "guest" (Some "device"%string) None None (Some "dev-1"%string) 0 None.

Definition user_g1 : User.t :=
  User.mk 1 "user" (Some "google"%string) (Some "g1"%string)
          (Some "a@x.com"%string) None 0 (Some 0).

Definition guest2 : User.t :=
  User.mk 2 "guest" (Some "device"%string) None None (Some "dev-2"%string) 0 None.

Definition empty_db : DB := mkDB [] [] 1 1.

(** One guest on device "dev-1". *)
Definition db_guest : DB := mkDB [guest1] [] 2 1.

(** A user bound to "g1" with a@x.com, and a guest on device "dev-2". *)
Definition db_conflict : DB := mkDB [user_g1; guest2] [] 3 1.

Definition env1 : Env := mkEnv 100 "secret-1" (1000, 900).
Definition env2 : Env := mkEnv 200 "secret-2" (1100, 900).

Definition request0 : Request := mkRequest (Some "10.0.0.1"%string) (Some "ua"%string).

(** A user who holds the active refresh token "secret-0". *)
Definition db_token : DB :=
  mkDB [user_g1]
       [RefreshToken.mk 1 1 "h:secret-0" 1000 None 0 None (Some ""%string)]
       2 2.

(** Sample enums. *)
Inductive checkin_status := checkin_pending | checkin_verified | checkin_awarded
                            | checkin_rejected.

#[export] Instance checkin_status_eq_dec : EqDecision checkin_status.
Proof. solve_decision. Defined.

Inductive run_status := run_pending | run_awarded | run_rejected.

#[export] Instance run_status_eq_dec : EqDecision run_status.
Proof. solve_decision. Defined.

#[export] Instance economy : Status.Economy := {|
  Status.CheckinStatus := checkin_status;
  Status.CheckinStatus_verified := checkin_verified;
  Status.CheckinStatus_awarded := Some checkin_awarded;
  Status.RunStatus := run_status;
  Status.RunStatus_awarded := run_awarded
|}.

(** Noon of the day with the given ordinal. *)
Definition noon (d : positive) : Status.datetime :=
  (Status.midnight d + 43200000000)%N.

(** Account 7: a verified check-in on 2 November 2026 that ended the same
    day, an awarded run on 3 November, a rejected check-in on 3 November;
    account 8: one awarded run on 30 October. *)
Definition activity_db : Status.DB :=
  Status.mkDB
    [Status.mkCheckin 7 checkin_verified (Some (noon 739922)) (Some (noon 739922));
     Status.mkCheckin 7 checkin_rejected (Some (noon 739923)) None]
    [Status.mkRun 7 run_awarded (Some (noon 739923));
     Status.mkRun 8 run_awarded (Some (noon 739919))].

End Sample.

(** * Properties *)

(** ** The builtins and the handlers on small inputs *)

Section Examples.
Import Auth Sample.

Example lower_strip_email :
  Py.strip (Py.lower "  Alice@X.COM ") = "alice@x.com"%string.
Proof. reflexivity. Qed.

Example strip_keeps_inner_space : Py.strip " a b " = "a b"%string.
Proof. reflexivity. Qed.

Example empty_key_is_falsy : Py.truthy_opt_str (Some ""%string) = false.
Proof. reflexivity. Qed.

Example balance_of_no_rows : Ledger.get_coins_balance [] 7 = 0.
Proof. reflexivity. Qed.

(** A first login creates the account and its first refresh token. *)
Example first_login :
  google_auth empty_db (mkGoogleAuthIn "token-g1" None) request0 env1
  = (mkDB [User.mk 1 "user" (Some "google"%string) (Some "g1"%string)
                   (Some "a@x.com"%string) None 100 (Some 100)]
          [RefreshToken.mk 1 1 "h:secret-1" 1000 None 100
                           (Some "10.0.0.1"%string) (Some "ua"%string)]
          2 2,
     Return (mkGoogleAuthOut 1 "at" 900 false "secret-1" 900)).
Proof. reflexivity. Qed.

(** A rotation revokes the presented token and issues the next one. *)
Example one_rotation :
  refresh_token db_token (mkRefreshIn "secret-0") request0 env1
  = (mkDB [user_g1]
          [RefreshToken.mk 1 1 "h:secret-0" 1000 (Some 100) 0 None (Some ""%string);
           RefreshToken.mk 2 1 "h:secret-1" 1000 None 100
                           (Some "10.0.0.1"%string) (Some "ua"%string)]
          2 3,
     Return (mkRefreshOut "at" 900 "secret-1" 900)).
Proof. reflexivity. Qed.

(** The docstring's example: active today and yesterday, not the day
    before. *)
Example streak_of_two :
  Streak.calc_current_streak 739923%positive
    ({[ 739923; 739922; 739920 ]}%positive : gset Streak.date)
  = Some (Streak.Return 2).
Proof. vm_compute. reflexivity. Qed.

Example streak_without_today :
  Streak.calc_current_streak 739923%positive
    ({[ 739922; 739921 ]}%positive : gset Streak.date)
  = Some (Streak.Return 0).
Proof. vm_compute. reflexivity. Qed.

End Examples.

(** ** The ledger *)

Section LedgerFacts.
Import Ledger.

Lemma fold_left_add_acc (l : list Z) (a : Z) :
  fold_left Z.add l a = a + fold_left Z.add l 0.
Proof.
  revert a. induction l as [|x l IH]; intros a; simpl.
  - lia.
  - rewrite (IH (a + x)), (IH (0 + x)). lia.
Qed.

Lemma sum_of_deltas_filter (uid : Z) (db : Table) :
  sum_of_deltas uid db
  = fold_left Z.add (delta <$> filter (fun r => user_id r = uid) db) 0.
Proof.
  induction db as [|r db IH]; [reflexivity|].
  cbn [sum_of_deltas]. rewrite filter_cons.
  destruct (decide (user_id r = uid)) as [E|E].
  - rewrite fmap_cons. cbn [fold_left].
    rewrite (fold_left_add_acc _ (0 + delta r)), IH. lia.
  - exact IH.
Qed.

Lemma get_coins_balance_sum (db : Table) (uid : Z) :
  get_coins_balance db uid = sum_of_deltas uid db.
Proof.
  unfold get_coins_balance. rewrite sum_of_deltas_filter.
  destruct (delta <$> filter (fun r => user_id r = uid) db) as [|x l] eqn:E;
    simpl.
  - reflexivity.
  - destruct (Z.eqb_spec (fold_left Z.add l (0 + x)) 0) as [E0|E0]; congruence.
Qed.

Lemma sum_of_deltas_app (uid : Z) (db1 db2 : Table) :
  sum_of_deltas uid (db1 ++ db2) = sum_of_deltas uid db1 + sum_of_deltas uid db2.
Proof.
  induction db1 as [|r db1 IH]; simpl; [reflexivity|].
  destruct (decide (user_id r = uid)); lia.
Qed.

(** A lookup that found nothing finds the appended row exactly when the
    row has the key. *)
Lemma first_by_key_snoc (db : Table) (u : Z) (k : string) (row : CoinsLedger) :
  first_by_key db u k = None ->
  first_by_key (db ++ [row]) u k
  = if decide (user_id row = u /\ idempotency_key row = Some k)
    then Some row else None.
Proof.
  unfold first_by_key. intros E.
  rewrite filter_app, head_app, E, filter_cons, filter_nil.
  destruct (decide _); reflexivity.
Qed.

Lemma first_by_ref_snoc (db : Table) (u : Z) (s : string) (r : Z)
    (row : CoinsLedger) :
  first_by_ref db u s r = None ->
  first_by_ref (db ++ [row]) u s r
  = if decide (user_id row = u /\ source row = s /\ ref_id row = Some r)
    then Some row else None.
Proof.
  unfold first_by_ref. intros E.
  rewrite filter_app, head_app, E, filter_cons, filter_nil.
  destruct (decide _); reflexivity.
Qed.

Lemma head_None_nil {X} (l : list X) : head l = None -> l = [].
Proof. destruct l; [reflexivity|discriminate]. Qed.

(** A call that finds no row under either key appends its row and
    returns the requested delta. *)
Lemma add_ledger_entry_fresh (db : Table) (now uid d : Z) (src : string)
    (ref : option Z) (key : option string) :
  (forall k, key = Some k -> Py.truthy_str k = true -> first_by_key db uid k = None) ->
  (forall r, ref = Some r -> first_by_ref db uid src r = None) ->
  add_ledger_entry db now uid d src ref key
  = (db ++ [mkCoinsLedger uid d src ref key now], d).
Proof.
  intros Hk Hr. unfold add_ledger_entry.
  destruct key as [k|]; [destruct (Py.truthy_str k) eqn:Ek|].
  - rewrite (Hk k eq_refl Ek). simpl.
    destruct ref as [r|]; [rewrite (Hr r eq_refl)|]; reflexivity.
  - simpl. destruct ref as [r|]; [rewrite (Hr r eq_refl)|]; reflexivity.
  - simpl. destruct ref as [r|]; [rewrite (Hr r eq_refl)|]; reflexivity.
Qed.

(** A match on the idempotency key is returned as stored. *)
Lemma add_ledger_entry_key_hit (db : Table) (now uid d : Z) (src : string)
    (ref : option Z) (k : string) (row : CoinsLedger) :
  Py.truthy_str k = true ->
  first_by_key db uid k = Some row ->
  add_ledger_entry db now uid d src ref (Some k) = (db, delta row).
Proof.
  intros Ek E. unfold add_ledger_entry. rewrite Ek, E. simpl.
  destruct ref; reflexivity.
Qed.

(** With no match on the idempotency key (or none usable), a match on
    (source, ref_id) is returned as stored. *)
Lemma add_ledger_entry_ref_hit (db : Table) (now uid d : Z) (src : string)
    (r : Z) (key : option string) (row : CoinsLedger) :
  (forall k, key = Some k -> Py.truthy_str k = true -> first_by_key db uid k = None) ->
  first_by_ref db uid src r = Some row ->
  add_ledger_entry db now uid d src (Some r) key = (db, delta row).
Proof.
  intros Hk E. unfold add_ledger_entry.
  destruct key as [k|]; [destruct (Py.truthy_str k) eqn:Ek|].
  - rewrite (Hk k eq_refl Ek). simpl. rewrite E. reflexivity.
  - simpl. rewrite E. reflexivity.
  - simpl. rewrite E. reflexivity.
Qed.

(** The three ways a call can go. *)
Lemma add_ledger_entry_cases (db : Table) (now uid d : Z) (src : string)
    (ref : option Z) (key : option string) :
  (exists k row, key = Some k /\ Py.truthy_str k = true /\
                 first_by_key db uid k = Some row /\
                 add_ledger_entry db now uid d src ref key = (db, delta row))
  \/ (exists r row,
        (forall k, key = Some k -> Py.truthy_str k = true ->
                   first_by_key db uid k = None) /\
        ref = Some r /\ first_by_ref db uid src r = Some row /\
        add_ledger_entry db now uid d src ref key = (db, delta row))
  \/ ((forall k, key = Some k -> Py.truthy_str k = true ->
                 first_by_key db uid k = None) /\
      (forall r, ref = Some r -> first_by_ref db uid src r = None) /\
      add_ledger_entry db now uid d src ref key
      = (db ++ [mkCoinsLedger uid d src ref key now], d)).
Proof.
  assert (Hmiss :
    (exists k row, key = Some k /\ Py.truthy_str k = true /\
                   first_by_key db uid k = Some row)
    \/ (forall k, key = Some k -> Py.truthy_str k = true ->
                  first_by_key db uid k = None)).
  { destruct key as [k|]; [|right; intros k [=]].
    destruct (Py.truthy_str k) eqn:Ek; [|right; intros k0 [= <-]; congruence].
    destruct (first_by_key db uid k) as [row|] eqn:E.
    - left. eauto.
    - right. intros k0 [= <-] _. assumption. }
  destruct Hmiss as [(k & row & -> & Ek & E)|Hk].
  - left. exists k, row. repeat split; try assumption.
    apply add_ledger_entry_key_hit; assumption.
  - right. destruct ref as [r|].
    + destruct (first_by_ref db uid src r) as [row|] eqn:Er.
      * left. exists r, row. repeat split; try assumption.
        apply add_ledger_entry_ref_hit; assumption.
      * right. repeat split; try assumption.
        -- intros r0 [= <-]. assumption.
        -- apply add_ledger_entry_fresh; [assumption|].
           intros r0 [= <-]. assumption.
    + right. repeat split; try assumption.
      * intros r [=].
      * apply add_ledger_entry_fresh; [assumption|]. intros r [=].
Qed.

(** A repeated call that can be deduplicated changes nothing and returns
    what the first call returned. *)
Lemma add_ledger_entry_retry (db : Table) (now1 now2 uid d d' : Z) (src : string)
    (ref : option Z) (key : option string) :
  Py.truthy_opt_str key = true \/ ref <> None ->
  add_ledger_entry (add_ledger_entry db now1 uid d src ref key).1
                   now2 uid d' src ref key
  = add_ledger_entry db now1 uid d src ref key.
Proof.
  intros Hdedup.
  destruct (add_ledger_entry_cases db now1 uid d src ref key)
    as [(k & row & -> & Ek & E & ->)|[(r & row & Hk & -> & Er & ->)
                                      |(Hk & Hr & ->)]]; simpl.
  - apply add_ledger_entry_key_hit; assumption.
  - apply add_ledger_entry_ref_hit; assumption.
  - set (new := mkCoinsLedger uid d src ref key now1).
    destruct key as [k|]; [destruct (Py.truthy_str k) eqn:Ek|].
    + rewrite (add_ledger_entry_key_hit _ _ _ _ _ _ _ new Ek); [reflexivity|].
      rewrite first_by_key_snoc by (apply Hk; auto). subst new. simpl.
      destruct (decide _) as [_|n]; [reflexivity|]. destruct n; auto.
    + destruct Hdedup as [Hd|Hd]; [simpl in Hd; congruence|].
      destruct ref as [r|]; [|congruence].
      rewrite (add_ledger_entry_ref_hit _ _ _ _ _ _ _ new); [reflexivity| |].
      * intros k0 [= <-] Hk0. congruence.
      * rewrite first_by_ref_snoc by (apply Hr; auto). subst new. simpl.
        destruct (decide _) as [_|n]; [reflexivity|]. destruct n; auto.
    + destruct Hdedup as [Hd|Hd]; [simpl in Hd; congruence|].
      destruct ref as [r|]; [|congruence].
      rewrite (add_ledger_entry_ref_hit _ _ _ _ _ _ _ new); [reflexivity| |].
      * intros k0 [=].
      * rewrite first_by_ref_snoc by (apply Hr; auto). subst new. simpl.
        destruct (decide _) as [_|n]; [reflexivity|]. destruct n; auto.
Qed.

End LedgerFacts.

Section LedgerClaims.
Import Ledger.

(** C4. A call for a (account, source, ref_id) the ledger has no row of
    inserts one row and returns its delta; the same call made again, even
    with another amount, returns the stored delta, inserts nothing, and
    the dedup key has exactly one row.  The idempotency key, when the
    calls carry one, is one the ledger has no row of either. *)
Theorem add_ledger_entry_twice (db : Table) (now1 now2 acct d d' : Z)
    (src : string) (ref : Z) (key : option string) :
  first_by_ref db acct src ref = None ->
  (forall k, key = Some k -> Py.truthy_str k = true ->
             first_by_key db acct k = None) ->
  let first_call := add_ledger_entry db now1 acct d src (Some ref) key in
  let second_call :=
    add_ledger_entry first_call.1 now2 acct d' src (Some ref) key in
  first_call.2 = d /\ second_call.2 = d /\
  second_call.1 = first_call.1 /\
  length (rows_of_ref second_call.1 acct src ref) = 1%nat.
Proof.
  intros Hr Hk first_call second_call.
  assert (E2 : second_call = first_call).
  { apply add_ledger_entry_retry. right. discriminate. }
  assert (E1 : first_call
               = (db ++ [mkCoinsLedger acct d src (Some ref) key now1], d)).
  { apply add_ledger_entry_fresh; [assumption|]. intros r [= <-]. assumption. }
  rewrite E2, E1. simpl. repeat split.
  unfold rows_of_ref. rewrite filter_app.
  rewrite (head_None_nil _ Hr). simpl.
  rewrite filter_cons, filter_nil. simpl.
  destruct (decide _) as [_|n]; [reflexivity|]. destruct n; auto.
Qed.

Lemma add_ledger_entry_twice_witness :
  let first_call := add_ledger_entry [] 0 7 10 "checkin" (Some 5) None in
  let second_call := add_ledger_entry first_call.1 1 7 10 "checkin" (Some 5) None in
  first_call.2 = 10 /\ second_call.2 = 10 /\
  second_call.1 = first_call.1 /\
  length (rows_of_ref second_call.1 7 "checkin" 5) = 1%nat.
Proof.
  apply (add_ledger_entry_twice [] 0 1 7 10 10 "checkin" 5 None).
  - reflexivity.
  - intros k Hk. discriminate Hk.
Defined.

(** C5, as stated, fails: two calls with the distinct idempotency keys
    "k1" and "k2" for the same (source, ref_id) leave one row, and the
    second call returns the first call's delta. *)
Lemma distinct_keys_collapse_on_same_ref :
  let first_call :=
    add_ledger_entry [] 0 7 10 "checkin" (Some 5) (Some "k1"%string) in
  let second_call :=
    add_ledger_entry first_call.1 1 7 20 "checkin" (Some 5) (Some "k2"%string) in
  "k1"%string <> "k2"%string /\
  first_call.2 = 10 /\ second_call.2 = 10 /\ second_call.2 <> 20 /\
  length second_call.1 = 1%nat.
Proof. vm_compute. repeat split; discriminate. Qed.

(** C5, amended.  Two calls with distinct non-empty idempotency keys that
    the ledger has no row of each insert their own row and return their
    own delta, provided the (source, ref_id) of each call, when it has a
    ref_id, is one the ledger has no row of and the two calls do not share
    it.  The lookup is by (account, idempotency_key) first; when that
    finds nothing and a ref_id is supplied, by (account, source, ref_id). *)
Theorem distinct_keys_distinct_rows (db : Table) (now1 now2 acct d1 d2 : Z)
    (k1 k2 s1 s2 : string) (r1 r2 : option Z) :
  k1 <> k2 ->
  Py.truthy_str k1 = true -> Py.truthy_str k2 = true ->
  first_by_key db acct k1 = None -> first_by_key db acct k2 = None ->
  (forall r, r1 = Some r -> first_by_ref db acct s1 r = None) ->
  (forall r, r2 = Some r ->
             first_by_ref db acct s2 r = None /\ (s1, r1) <> (s2, r2)) ->
  let row1 := mkCoinsLedger acct d1 s1 r1 (Some k1) now1 in
  let row2 := mkCoinsLedger acct d2 s2 r2 (Some k2) now2 in
  add_ledger_entry db now1 acct d1 s1 r1 (Some k1) = (db ++ [row1], d1) /\
  add_ledger_entry (db ++ [row1]) now2 acct d2 s2 r2 (Some k2)
  = (db ++ [row1; row2], d2) /\
  (forall db0 now0 d0 s0 r0 row,
      first_by_key db0 acct k1 = Some row ->
      add_ledger_entry db0 now0 acct d0 s0 r0 (Some k1) = (db0, delta row)) /\
  (forall db0 now0 d0 s0 r0 row,
      first_by_key db0 acct k1 = None ->
      first_by_ref db0 acct s0 r0 = Some row ->
      add_ledger_entry db0 now0 acct d0 s0 (Some r0) (Some k1) = (db0, delta row)).
Proof.
  intros Hne T1 T2 K1 K2 R1 R2 row1 row2. repeat split.
  - apply add_ledger_entry_fresh; [|assumption].
    intros k [= <-] _. assumption.
  - replace (db ++ [row1; row2]) with ((db ++ [row1]) ++ [row2])
      by (rewrite <- app_assoc; reflexivity).
    apply add_ledger_entry_fresh.
    + intros k [= <-] _. rewrite first_by_key_snoc by assumption.
      subst row1. simpl. destruct (decide _) as [[_ E]|_]; [|reflexivity].
      congruence.
    + intros r ->. destruct (R2 r eq_refl) as [E Hd].
      rewrite first_by_ref_snoc by assumption.
      subst row1. simpl. destruct (decide _) as [(_ & E1 & E2)|_]; [|reflexivity].
      congruence.
  - intros. apply add_ledger_entry_key_hit; assumption.
  - intros db0 now0 d0 s0 r0 row E0 E1.
    apply add_ledger_entry_ref_hit; [|assumption].
    intros k [= <-] _. assumption.
Qed.

Lemma distinct_keys_distinct_rows_witness :
  let row1 := mkCoinsLedger 7 10 "checkin" (Some 5) (Some "k1"%string) 0 in
  let row2 := mkCoinsLedger 7 20 "checkin" (Some 6) (Some "k2"%string) 1 in
  add_ledger_entry [] 0 7 10 "checkin" (Some 5) (Some "k1"%string)
  = ([row1], 10) /\
  add_ledger_entry [row1] 1 7 20 "checkin" (Some 6) (Some "k2"%string)
  = ([row1; row2], 20).
Proof.
  pose proof (distinct_keys_distinct_rows [] 0 1 7 10 20 "k1" "k2"
                "checkin" "checkin" (Some 5) (Some 6)) as W.
  simpl in W. destruct W as (W1 & W2 & _).
  - discriminate.
  - reflexivity.
  - reflexivity.
  - reflexivity.
  - reflexivity.
  - intros r _. reflexivity.
  - intros r _. split; [reflexivity|discriminate].
  - split; assumption.
Defined.

(** C6. For every ledger state and account, [get_coins_balance] is the
    sum of the deltas of the account's rows, and 0 when it has none; this
    holds of the ledger after an award call and its retry, and a retry
    that carries an idempotency key or a ref_id leaves the balance as
    the first call left it. *)
Theorem balance_is_sum_of_deltas (db : Table) (uid : Z) :
  get_coins_balance db uid = sum_of_deltas uid db /\
  (filter (fun r => user_id r = uid) db = [] -> get_coins_balance db uid = 0) /\
  (forall now1 now2 acct d d' src ref key,
      let db1 := (add_ledger_entry db now1 acct d src ref key).1 in
      let db2 := (add_ledger_entry db1 now2 acct d' src ref key).1 in
      get_coins_balance db2 uid = sum_of_deltas uid db2 /\
      (Py.truthy_opt_str key = true \/ ref <> None ->
       get_coins_balance db2 uid = get_coins_balance db1 uid)).
Proof.
  split; [apply get_coins_balance_sum|]. split.
  - intros E. rewrite get_coins_balance_sum, sum_of_deltas_filter, E.
    reflexivity.
  - intros now1 now2 acct d d' src ref key db1 db2.
    split; [apply get_coins_balance_sum|].
    intros Hdedup. subst db2 db1.
    rewrite add_ledger_entry_retry by assumption. reflexivity.
Qed.

Lemma balance_is_sum_of_deltas_witness :
  let db := [mkCoinsLedger 7 10 "checkin" (Some 5) None 0;
             mkCoinsLedger 8 3 "run" None None 1;
             mkCoinsLedger 7 (-4) "shop" None (Some "buy-1"%string) 2] in
  get_coins_balance db 7 = 6 /\
  get_coins_balance db 9 = 0 /\
  get_coins_balance
    (add_ledger_entry (add_ledger_entry db 3 7 5 "checkin" (Some 6) None).1
                      4 7 5 "checkin" (Some 6) None).1 7 = 11.
Proof.
  intros db.
  destruct (balance_is_sum_of_deltas db 7) as (W1 & _ & W3).
  destruct (balance_is_sum_of_deltas db 9) as (_ & W2 & _).
  split; [exact W1|]. split; [apply W2; reflexivity|].
  destruct (W3 3 4 7 5 5 "checkin"%string (Some 6) (@None string)) as [_ W5].
  rewrite W5 by (right; discriminate). reflexivity.
Defined.

End LedgerClaims.

(** ** [query.first()] on a list of rows *)

Section FirstFacts.
Context {X : Type} (P : X -> Prop) `{!forall x, Decision (P x)}.

Lemma first_Some_inv (l : list X) (x : X) :
  head (filter P l) = Some x -> P x /\ x ∈ l.
Proof.
  intros E. apply head_Some_elem_of in E.
  apply list_elem_of_filter in E. exact E.
Qed.

Lemma first_None_inv (l : list X) (x : X) :
  head (filter P l) = None -> x ∈ l -> ~ P x.
Proof.
  intros E Hin HP. apply head_None_nil in E.
  exact (filter_nil_not_elem_of P l x E HP Hin).
Qed.

Lemma first_is_Some (l : list X) (x : X) :
  x ∈ l -> P x -> is_Some (head (filter P l)).
Proof.
  intros Hin HP. destruct (head (filter P l)) eqn:E; [eauto|].
  destruct (first_None_inv l x E Hin HP).
Qed.

Lemma first_app (l1 l2 : list X) :
  head (filter P (l1 ++ l2))
  = match head (filter P l1) with
    | Some x => Some x
    | None => head (filter P l2)
    end.
Proof. rewrite filter_app. apply head_app. Qed.

(** An update that keeps the filtered column keeps the position of the
    first match. *)
Lemma first_fmap (f : X -> X) (l : list X) :
  (forall x, P (f x) <-> P x) ->
  head (filter P (f <$> l)) = f <$> head (filter P l).
Proof.
  intros Hf. induction l as [|x l IH]; [reflexivity|].
  rewrite fmap_cons, !filter_cons.
  destruct (decide (P (f x))) as [Y|N], (decide (P x)) as [Y'|N'].
  - reflexivity.
  - destruct N'. apply Hf. exact Y.
  - destruct N. apply Hf. exact Y'.
  - exact IH.
Qed.

End FirstFacts.

(** ** The auth routers *)

Section AuthFacts.
Import Auth.
Context `{Security} `{GoogleVerifier}.

Lemma revoke_row_hash (i now_ : Z) (h : string) (r : RefreshToken.t) :
  RefreshToken.token_hash (revoke_row i now_ r) = h
  <-> RefreshToken.token_hash r = h.
Proof. unfold revoke_row. destruct (decide _); reflexivity. Qed.

Lemma first_revoked_revoke (tokens : list RefreshToken.t) (h : string)
    (i now_ : Z) :
  first_revoked tokens h -> first_revoked (revoke_row i now_ <$> tokens) h.
Proof.
  intros (rt & E & R).
  exists (revoke_row i now_ rt). split.
  - rewrite (first_fmap _ (revoke_row i now_)) by apply revoke_row_hash.
    rewrite E. reflexivity.
  - unfold revoke_row. destruct (decide _); [discriminate|exact R].
Qed.

Lemma first_revoked_snoc (tokens : list RefreshToken.t) (h : string)
    (r : RefreshToken.t) :
  first_revoked tokens h -> first_revoked (tokens ++ [r]) h.
Proof.
  intros (rt & E & R). exists rt. split; [|exact R].
  rewrite first_app, E. reflexivity.
Qed.

(** *** What the handlers do to the two tables *)

Lemma update_user_keeps_id (db : DB) (u : User.t) (f : User.t -> User.t) :
  u ∈ users db -> (forall v, User.id (f v) = User.id v) ->
  is_Some (first_user_by_id (update_user db (User.id u) f) (User.id u)).
Proof.
  intros Hin Hf. unfold first_user_by_id. simpl.
  rewrite (first_fmap _ (fun v => if decide (User.id v = User.id u)
                                  then f v else v)).
  - destruct (first_is_Some (fun v => User.id v = User.id u) _ u Hin eq_refl)
      as [x ->]. simpl. eauto.
  - intros v. destruct (decide _); [rewrite Hf|]; reflexivity.
Qed.

Lemma add_user_has_id (db : DB) (mk : Z -> User.t) :
  (forall i, User.id (mk i) = i) ->
  is_Some (first_user_by_id (add_user db mk).1 (add_user db mk).2).
Proof.
  intros Hmk. unfold first_user_by_id. simpl. rewrite first_app.
  destruct (head (filter (fun u => User.id u = next_user_id db) (users db)));
    [eauto|].
  rewrite filter_cons, filter_nil.
  destruct (decide _) as [_|n]; [simpl; eauto|]. destruct n. apply Hmk.
Qed.

Lemma bind_account_tokens (db db' : DB) (payload : GoogleAuthIn) (now_ : Z)
    (s e : string) (uid : Z) :
  bind_account db payload now_ s e = Return (db', uid) ->
  refresh_tokens db' = refresh_tokens db /\
  next_token_id db' = next_token_id db /\
  is_Some (first_user_by_id db' uid).
Proof.
  unfold bind_account.
  destruct (first_user_by_sub db s) as [user|] eqn:Esub.
  - intros [= <- <-]. repeat split.
    apply update_user_keeps_id; [|reflexivity].
    apply (first_Some_inv _ _ _ Esub).
  - destruct (Py.truthy_opt_str (payload_device_id payload)).
    + destruct (first_guest_by_device db _) as [guest|] eqn:Eg.
      * assert (Hg : guest ∈ users db) by apply (first_Some_inv _ _ _ Eg).
        destruct (first_email_owner db e (User.id guest)) as [o|].
        -- destruct (bool_decide _); [discriminate|].
           intros [= <- <-]. repeat split.
           apply update_user_keeps_id; [exact Hg|reflexivity].
        -- intros [= <- <-]. repeat split.
           apply update_user_keeps_id; [exact Hg|reflexivity].
      * intros [= E1 E2]. subst db' uid. repeat split.
        apply (add_user_has_id db (new_user s e (payload_device_id payload) now_)).
        reflexivity.
    + intros [= E1 E2]. subst db' uid. repeat split.
      apply (add_user_has_id db (new_user s e None now_)). reflexivity.
Qed.

Lemma issue_session_spec (db : DB) (uid : Z) (request : Request) (env : Env) :
  users (issue_session db uid request env).1 = users db /\
  refresh_tokens (issue_session db uid request env).1
  = refresh_tokens db ++ [issued_row db uid request env] /\
  out_user_id (issue_session db uid request env).2 = uid /\
  out_is_guest (issue_session db uid request env).2 = false /\
  out_refresh_token (issue_session db uid request env).2
  = generate_refresh_token env.
Proof.
  unfold issue_session, issued_row.
  destruct (create_access_token uid false) as [[a b] c].
  destruct (refresh_token_expiry env) as [x y]. simpl. repeat split.
Qed.

Lemma refresh_issue_spec (db : DB) (user : User.t) (request : Request)
    (env : Env) :
  users (refresh_issue db user request env).1 = users db /\
  refresh_tokens (refresh_issue db user request env).1
  = refresh_tokens db ++ [issued_row db (User.id user) request env] /\
  refresh_token_out (refresh_issue db user request env).2
  = generate_refresh_token env.
Proof.
  unfold refresh_issue, issued_row.
  destruct (refresh_token_expiry env) as [x y].
  destruct (create_access_token _ _) as [[a b] c]. simpl. repeat split.
Qed.

(** [google_auth] unfolded once the account is bound. *)
Lemma google_auth_bound (db : DB) (payload : GoogleAuthIn) (request : Request)
    (env : Env) (info : Claims) (s e : string) :
  verify_google_token (id_token payload) = Return info ->
  sub info = Some s -> email info = Some e ->
  google_auth db payload request env
  = match bind_account db payload (now env) s (Py.strip (Py.lower e)) with
    | Raise ex => (db, Raise ex)
    | Return (db1, uid) =>
        ((issue_session db1 uid request env).1,
         Return (issue_session db1 uid request env).2)
    end.
Proof.
  intros Ev Es Ee. unfold google_auth.
  unfold mbind, outcome_bind. rewrite Ev. simpl. rewrite Es, Ee. simpl.
  destruct (bind_account _ _ _ _ _) as [[db1 uid]|ex]; [|reflexivity].
  destruct (issue_session db1 uid request env). reflexivity.
Qed.

(** What [verify_google_token] lets through. *)
Lemma verify_google_token_Return (token : string) (info : Claims) :
  verify_google_token token = Return info <->
  verify_oauth2_token token = Some info /\
  Py.truthy_opt_str (email info) = true /\
  email_verified info <> Some false /\
  Py.truthy_opt_str (sub info) = true.
Proof.
  unfold verify_google_token.
  destruct (verify_oauth2_token token) as [i|].
  - destruct (Py.truthy_opt_str (email i)) eqn:Ee; simpl.
    + destruct (bool_decide_reflect (email_verified i = Some false)) as [Ev|Ev].
      * split; [discriminate|]. intros ([= <-] & _ & N & _). contradiction.
      * destruct (Py.truthy_opt_str (sub i)) eqn:Es; simpl.
        -- split.
           ++ intros [= <-]. auto.
           ++ intros ([= <-] & _). reflexivity.
        -- split; [discriminate|]. intros ([= <-] & _ & _ & E). congruence.
    + split; [discriminate|]. intros ([= <-] & E & _). congruence.
  - split; [discriminate|]. intros ([=] & _).
Qed.

Lemma verify_google_token_Raise (token : string) (ex : exn) :
  verify_google_token token = Raise ex -> UnverifiedIdentity ex.
Proof.
  unfold verify_google_token, UnverifiedIdentity.
  destruct (verify_oauth2_token token) as [i|]; [|intros [= <-]; eauto].
  destruct (negb _); [intros [= <-]; eauto|].
  destruct (bool_decide _); [intros [= <-]; eauto|].
  destruct (negb _); [intros [= <-]; eauto|discriminate].
Qed.

Lemma truthy_opt_str_Some (o : option string) :
  Py.truthy_opt_str o = true -> exists s, o = Some s /\ Py.truthy_str s = true.
Proof. destruct o as [s|]; [eauto|discriminate]. Qed.

Lemma google_auth_tokens (db : DB) (payload : GoogleAuthIn) (request : Request)
    (env : Env) :
  refresh_tokens (google_auth db payload request env).1 = refresh_tokens db
  \/ exists r, refresh_tokens (google_auth db payload request env).1
               = refresh_tokens db ++ [r].
Proof.
  destruct (verify_google_token (id_token payload)) as [info|ex] eqn:Ev.
  - pose proof Ev as Ev'. apply verify_google_token_Return in Ev'.
    destruct Ev' as (_ & Ee & _ & Es).
    apply truthy_opt_str_Some in Ee, Es.
    destruct Ee as (e & Ee & _), Es as (s & Es & _).
    rewrite (google_auth_bound _ _ _ _ _ _ _ Ev Es Ee).
    destruct (bind_account _ _ _ _ _) as [[db1 uid]|ex] eqn:Eb; [|left; reflexivity].
    right. apply bind_account_tokens in Eb. destruct Eb as (Et & _).
    cbn [fst snd].
    destruct (issue_session_spec db1 uid request env) as (_ & -> & _).
    rewrite Et. eauto.
  - left. unfold google_auth, mbind, outcome_bind. rewrite Ev. reflexivity.
Qed.

Lemma refresh_lookup_Return (db : DB) (payload : RefreshIn) (now_ : Z)
    (old_rt : RefreshToken.t) (user : User.t) :
  refresh_lookup db payload now_ = Return (old_rt, user) <->
  first_token_by_hash db (hash_refresh_token (refresh_token_in payload))
  = Some old_rt /\
  usable now_ old_rt /\
  first_user_by_id db (RefreshToken.user_id old_rt) = Some user.
Proof.
  unfold refresh_lookup, usable.
  destruct (first_token_by_hash db _) as [rt|].
  - destruct (RefreshToken.revoked_at rt) as [t|] eqn:Er; simpl.
    + split; [discriminate|]. intros ([= <-] & [E _] & _). congruence.
    + destruct (Z.leb_spec (RefreshToken.expires_at rt) now_) as [L|L].
      * split; [discriminate|]. intros ([= <-] & [_ E] & _). lia.
      * destruct (first_user_by_id db _) as [u|] eqn:Eu.
        -- split.
           ++ intros [= <- <-]. auto.
           ++ intros ([= <-] & _ & E). rewrite Eu in E. congruence.
        -- split; [discriminate|]. intros ([= <-] & _ & E). congruence.
  - split; [discriminate|]. intros ([=] & _).
Qed.

Lemma refresh_token_tokens (db : DB) (payload : RefreshIn) (request : Request)
    (env : Env) :
  refresh_tokens (refresh_token db payload request env).1 = refresh_tokens db
  \/ exists i r, refresh_tokens (refresh_token db payload request env).1
                 = (revoke_row i (now env) <$> refresh_tokens db) ++ [r].
Proof.
  unfold refresh_token.
  destruct (refresh_lookup db payload (now env)) as [[old_rt user]|ex];
    [|left; reflexivity].
  right.
  pose proof (refresh_issue_spec (refresh_revoke db old_rt (now env)) user
                                 request env) as (_ & Et & _).
  destruct (refresh_issue _ user request env) as [db2 out]. simpl in *.
  rewrite Et. eauto.
Qed.

(** Once the first row of a hash is revoked it stays revoked, whatever
    requests follow. *)
Lemma first_revoked_serve (db : DB) (h : string) (c : call) :
  first_revoked (refresh_tokens db) h ->
  first_revoked (refresh_tokens (serve db c)) h.
Proof.
  intros R. destruct c as [payload request env|payload request env]; simpl.
  - destruct (google_auth_tokens db payload request env) as [->|[r ->]].
    + exact R.
    + apply first_revoked_snoc, R.
  - destruct (refresh_token_tokens db payload request env) as [->|(i & r & ->)].
    + exact R.
    + apply first_revoked_snoc, first_revoked_revoke, R.
Qed.

Lemma first_revoked_serve_all (cs : list call) (db : DB) (h : string) :
  first_revoked (refresh_tokens db) h ->
  first_revoked (refresh_tokens (serve_all db cs)) h.
Proof.
  revert db. induction cs as [|c cs IH]; intros db R; [exact R|].
  simpl. apply IH, first_revoked_serve, R.
Qed.

(** A rotation that finds the first row of the hash revoked is refused. *)
Lemma refresh_token_revoked (db : DB) (payload : RefreshIn) (request : Request)
    (env : Env) :
  first_revoked (refresh_tokens db)
                (hash_refresh_token (refresh_token_in payload)) ->
  refresh_token db payload request env = (db, Raise InvalidCredential).
Proof.
  intros (rt & E & R). unfold refresh_token, refresh_lookup.
  unfold first_token_by_hash. rewrite E.
  destruct (RefreshToken.revoked_at rt); [reflexivity|congruence].
Qed.

(** A rotation that finds a usable row with an owner succeeds, and leaves
    the first row of the hash revoked. *)
Lemma refresh_token_usable (db : DB) (payload : RefreshIn) (request : Request)
    (env : Env) (old_rt : RefreshToken.t) (user : User.t) :
  refresh_lookup db payload (now env) = Return (old_rt, user) ->
  let db1 := refresh_revoke db old_rt (now env) in
  refresh_token db payload request env
  = ((refresh_issue db1 user request env).1,
     Return (refresh_issue db1 user request env).2) /\
  first_revoked (refresh_tokens (refresh_token db payload request env).1)
                (hash_refresh_token (refresh_token_in payload)).
Proof.
  intros E db1.
  assert (Eq : refresh_token db payload request env
               = ((refresh_issue db1 user request env).1,
                  Return (refresh_issue db1 user request env).2)).
  { unfold refresh_token. rewrite E. fold db1.
    destruct (refresh_issue db1 user request env). reflexivity. }
  split; [exact Eq|]. rewrite Eq. simpl.
  destruct (refresh_issue_spec db1 user request env) as (_ & -> & _).
  apply first_revoked_snoc.
  apply refresh_lookup_Return in E. destruct E as (E & _ & _).
  exists (revoke_row (RefreshToken.id old_rt) (now env) old_rt). split.
  - subst db1. simpl. fold (revoke_row (RefreshToken.id old_rt) (now env)).
    rewrite (first_fmap _ (revoke_row _ _)) by apply revoke_row_hash.
    unfold first_token_by_hash in E. rewrite E. reflexivity.
  - unfold revoke_row. destruct (decide _) as [_|n]; [discriminate|].
    destruct n. reflexivity.
Qed.

End AuthFacts.

Section RefreshClaims.
Import Auth.
Context `{Security} `{GoogleVerifier}.

Lemma first_token_by_hash_ext (db db' : DB) (h : string) :
  refresh_tokens db = refresh_tokens db' ->
  first_token_by_hash db h = first_token_by_hash db' h.
Proof. unfold first_token_by_hash. intros ->. reflexivity. Qed.

Lemma first_user_by_id_ext (db db' : DB) (i : Z) :
  users db = users db' -> first_user_by_id db i = first_user_by_id db' i.
Proof. unfold first_user_by_id. intros ->. reflexivity. Qed.

(** What a successful login leaves in the store. *)
Lemma google_auth_Return_inv (db db1 : DB) (payload : GoogleAuthIn)
    (request : Request) (env : Env) (out : GoogleAuthOut) :
  google_auth db payload request env = (db1, Return out) ->
  exists db0 uid,
    refresh_tokens db0 = refresh_tokens db /\
    is_Some (first_user_by_id db0 uid) /\
    db1 = (issue_session db0 uid request env).1 /\
    out = (issue_session db0 uid request env).2.
Proof.
  intros E.
  destruct (verify_google_token (id_token payload)) as [info|ex] eqn:Ev.
  - pose proof Ev as Ev'. apply verify_google_token_Return in Ev'.
    destruct Ev' as (_ & Ee & _ & Es).
    apply truthy_opt_str_Some in Ee, Es.
    destruct Ee as (e & Ee & _), Es as (s & Es & _).
    rewrite (google_auth_bound _ _ _ _ _ _ _ Ev Es Ee) in E.
    destruct (bind_account _ _ _ _ _) as [[db0 uid]|ex] eqn:Eb; [|discriminate].
    apply bind_account_tokens in Eb. destruct Eb as (Et & _ & Eu).
    injection E as <- <-. exists db0, uid. auto.
  - unfold google_auth, mbind, outcome_bind in E. rewrite Ev in E.
    discriminate.
Qed.

(** What a successful rotation leaves in the store. *)
Lemma refresh_token_Return_inv (db db1 : DB) (payload : RefreshIn)
    (request : Request) (env : Env) (out : RefreshOut) :
  refresh_token db payload request env = (db1, Return out) ->
  exists old_rt user,
    refresh_lookup db payload (now env) = Return (old_rt, user) /\
    db1 = (refresh_issue (refresh_revoke db old_rt (now env)) user request env).1 /\
    out = (refresh_issue (refresh_revoke db old_rt (now env)) user request env).2.
Proof.
  intros E.
  destruct (refresh_lookup db payload (now env)) as [[old_rt user]|ex] eqn:El.
  - destruct (refresh_token_usable _ _ request _ _ _ El) as [Eq _].
    rewrite Eq in E. injection E as <- <-. eauto.
  - unfold refresh_token in E. rewrite El in E. discriminate.
Qed.

Lemma head_filter_snoc_fresh (tokens : list RefreshToken.t) (h : string)
    (row : RefreshToken.t) :
  head (filter (fun r => RefreshToken.token_hash r = h) tokens) = None ->
  RefreshToken.token_hash row = h ->
  head (filter (fun r => RefreshToken.token_hash r = h) (tokens ++ [row]))
  = Some row.
Proof.
  intros E Hh. rewrite first_app, E, filter_cons, filter_nil.
  destruct (decide _) as [_|n]; [reflexivity|contradiction].
Qed.

Lemma login_freshly_issued (db db1 : DB) (payload : GoogleAuthIn)
    (request : Request) (env : Env) (out : GoogleAuthOut) :
  google_auth db payload request env = (db1, Return out) ->
  first_token_by_hash db (hash_refresh_token (generate_refresh_token env)) = None ->
  out_refresh_token out = generate_refresh_token env /\
  freshly_issued db1 (generate_refresh_token env) (refresh_token_expiry env).1.
Proof.
  intros E F. apply google_auth_Return_inv in E.
  destruct E as (db0 & uid & Et & Eu & -> & ->).
  destruct (issue_session_spec db0 uid request env) as (Us & Ts & _ & _ & Ep).
  split; [exact Ep|].
  exists (issued_row db0 uid request env). repeat split.
  - unfold first_token_by_hash. rewrite Ts.
    apply head_filter_snoc_fresh; [|reflexivity].
    unfold first_token_by_hash in F. rewrite Et. exact F.
  - simpl. rewrite (first_user_by_id_ext _ db0) by exact Us. exact Eu.
Qed.

Lemma rotation_freshly_issued (db db1 : DB) (payload : RefreshIn)
    (request : Request) (env : Env) (out : RefreshOut) :
  refresh_token db payload request env = (db1, Return out) ->
  first_token_by_hash db (hash_refresh_token (generate_refresh_token env)) = None ->
  refresh_token_out out = generate_refresh_token env /\
  freshly_issued db1 (generate_refresh_token env) (refresh_token_expiry env).1.
Proof.
  intros E F. apply refresh_token_Return_inv in E.
  destruct E as (old_rt & user & El & -> & ->).
  set (db0 := refresh_revoke db old_rt (now env)).
  destruct (refresh_issue_spec db0 user request env) as (Us & Ts & Ep).
  split; [exact Ep|].
  exists (issued_row db0 (User.id user) request env). repeat split.
  - unfold first_token_by_hash. rewrite Ts.
    apply head_filter_snoc_fresh; [|reflexivity].
    subst db0. simpl. fold (revoke_row (RefreshToken.id old_rt) (now env)).
    rewrite (first_fmap _ (revoke_row _ _)) by apply revoke_row_hash.
    unfold first_token_by_hash in F. rewrite F. reflexivity.
  - simpl. rewrite (first_user_by_id_ext _ db) by exact Us.
    apply refresh_lookup_Return in El. destruct El as (_ & _ & Eu).
    pose proof (first_Some_inv _ _ _ Eu) as [Hid _].
    rewrite Hid. rewrite Eu. eauto.
Qed.

(** A freshly issued token rotates once, before its expiry, and never
    again. *)
Lemma freshly_issued_rotates (db1 : DB) (plain : string) (expires : Z)
    (request1 : Request) (env1 : Env) :
  freshly_issued db1 plain expires ->
  now env1 < expires ->
  exists db2 out1,
    refresh_token db1 (mkRefreshIn plain) request1 env1 = (db2, Return out1) /\
    forall cs request2 env2,
      refresh_token (serve_all db2 cs) (mkRefreshIn plain) request2 env2
      = (serve_all db2 cs, Raise InvalidCredential).
Proof.
  intros (row & Er & Rv & Ex & [user Eu]) Hnow.
  assert (El : refresh_lookup db1 (mkRefreshIn plain) (now env1)
               = Return (row, user)).
  { apply refresh_lookup_Return. simpl. repeat split; try assumption. lia. }
  destruct (refresh_token_usable _ _ request1 _ _ _ El) as [Eq R].
  eexists _, _. split; [exact Eq|].
  intros cs request2 env2. apply refresh_token_revoked. simpl.
  apply first_revoked_serve_all. rewrite Eq in R. exact R.
Qed.

(** C2. A refresh token issued by a login or by a rotation, whose hash
    no stored row had, rotates successfully when presented before its
    expiry; from then on, whatever requests are served in between, every
    rotation presenting the same plaintext is refused with
    InvalidCredential and changes nothing. *)
Theorem rotate_once_then_refused (db db1 : DB) (plain : string) (issue_env : Env) :
  ((exists payload request out,
       google_auth db payload request issue_env = (db1, Return out) /\
       out_refresh_token out = plain)
   \/ (exists payload request out,
       refresh_token db payload request issue_env = (db1, Return out) /\
       refresh_token_out out = plain)) ->
  first_token_by_hash db (hash_refresh_token (generate_refresh_token issue_env))
  = None ->
  forall request1 env1,
    now env1 < (refresh_token_expiry issue_env).1 ->
    exists db2 out1,
      refresh_token db1 (mkRefreshIn plain) request1 env1 = (db2, Return out1) /\
      forall cs request2 env2,
        refresh_token (serve_all db2 cs) (mkRefreshIn plain) request2 env2
        = (serve_all db2 cs, Raise InvalidCredential).
Proof.
  intros Hissued F request1 env1 Hnow.
  assert (Hf : plain = generate_refresh_token issue_env /\
               freshly_issued db1 (generate_refresh_token issue_env)
                              (refresh_token_expiry issue_env).1).
  { destruct Hissued as [(payload & request & out & E & <-)
                        |(payload & request & out & E & <-)].
    - destruct (login_freshly_issued _ _ _ _ _ _ E F). auto.
    - destruct (rotation_freshly_issued _ _ _ _ _ _ E F). auto. }
  destruct Hf as [-> Hf].
  apply (freshly_issued_rotates _ _ _ request1 env1 Hf Hnow).
Qed.

(** C3. [POST /refresh] raises the one exception InvalidCredential (401,
    "Invalid refresh token") exactly when no row has the presented hash,
    or the first such row is revoked, or its expiry is not after the
    clock; that is, exactly when there is no usable match.  The store is
    then unchanged, every failure of the handler is a 401, and where the
    matched row's owner exists, as the foreign key of the table
    requires, InvalidCredential is the only failure. *)
Theorem refresh_token_invalid_iff (db : DB) (payload : RefreshIn)
    (request : Request) (env : Env) :
  let old := first_token_by_hash db
               (hash_refresh_token (refresh_token_in payload)) in
  let r := refresh_token db payload request env in
  (r.2 = Raise InvalidCredential <->
   old = None \/
   exists rt, old = Some rt /\
              (RefreshToken.revoked_at rt <> None \/
               RefreshToken.expires_at rt <= now env)) /\
  (r.2 = Raise InvalidCredential <->
   ~ exists rt, old = Some rt /\ usable (now env) rt) /\
  (r.2 = Raise InvalidCredential -> r.1 = db) /\
  (forall e, r.2 = Raise e ->
             exists detail, e = HTTPException HTTP_401_UNAUTHORIZED detail) /\
  ((forall rt, old = Some rt ->
               is_Some (first_user_by_id db (RefreshToken.user_id rt))) ->
   forall e, r.2 = Raise e -> e = InvalidCredential).
Proof.
  intros old r. subst old r. unfold refresh_token, refresh_lookup, usable.
  destruct (first_token_by_hash db _) as [rt|].
  - destruct (RefreshToken.revoked_at rt) as [t|] eqn:Er; simpl.
    + repeat split; try reflexivity.
      * intros _. right. exists rt. split; [reflexivity|]. left. congruence.
      * intros _ (rt' & [= <-] & E & _). congruence.
      * intros e [= <-]. eauto.
      * intros _ e [= <-]. reflexivity.
    + destruct (Z.leb_spec (RefreshToken.expires_at rt) (now env)) as [L|L].
      * repeat split; try reflexivity.
        -- intros _. right. exists rt. auto.
        -- intros _ (rt' & [= <-] & _ & E). lia.
        -- intros e [= <-]. eauto.
        -- intros _ e [= <-]. reflexivity.
      * destruct (first_user_by_id db _) as [u|] eqn:Eu0.
        -- destruct (refresh_issue _ u request env) as [db2 out]. simpl.
           repeat split; try discriminate.
           ++ intros [[=]|(rt' & [= <-] & [E|E])]; [congruence|lia].
           ++ intros N. destruct N. exists rt. auto.
        -- simpl. repeat split; try discriminate.
           ++ intros [[=]|(rt' & [= <-] & [E|E])]; [congruence|lia].
           ++ intros N. destruct N. exists rt. auto.
           ++ intros e [= <-]. eauto.
           ++ intros Hfk. destruct (Hfk rt eq_refl) as [u Eu]. congruence.
  - simpl. repeat split; try reflexivity.
    + intros _. left. reflexivity.
    + intros _ (rt' & [=] & _).
    + intros e [= <-]. eauto.
    + intros _ e [= <-]. reflexivity.
Qed.

End RefreshClaims.

Section RefreshWitnesses.
Import Auth Sample.

Lemma rotate_once_then_refused_witness :
  let db1 := (google_auth empty_db (mkGoogleAuthIn "token-g1" None)
                          request0 env1).1 in
  exists db2 out1,
    refresh_token db1 (mkRefreshIn "secret-1") request0 env2
    = (db2, Return out1) /\
    forall cs request2 env2',
      refresh_token (serve_all db2 cs) (mkRefreshIn "secret-1") request2 env2'
      = (serve_all db2 cs, Raise InvalidCredential).
Proof.
  intros db1.
  apply (rotate_once_then_refused empty_db db1 "secret-1" env1).
  - left. exists (mkGoogleAuthIn "token-g1" None), request0,
      (mkGoogleAuthOut 1 "at" 900 false "secret-1" 900).
    split; reflexivity.
  - reflexivity.
  - reflexivity.
Defined.

Lemma refresh_token_invalid_iff_witness :
  (refresh_token db_token (mkRefreshIn "secret-0") request0
                 (mkEnv 1000 "secret-9" (2000, 900))).2
  = Raise InvalidCredential /\
  (refresh_token db_token (mkRefreshIn "secret-0") request0
                 (mkEnv 1000 "secret-9" (2000, 900))).1 = db_token.
Proof.
  destruct (refresh_token_invalid_iff db_token (mkRefreshIn "secret-0") request0
              (mkEnv 1000 "secret-9" (2000, 900))) as (W1 & _ & W3 & _ & _).
  assert (E : (refresh_token db_token (mkRefreshIn "secret-0") request0
                 (mkEnv 1000 "secret-9" (2000, 900))).2
              = Raise InvalidCredential).
  { apply W1. right. eexists. split; [reflexivity|]. right. simpl. lia. }
  split; [exact E|apply W3, E].
Defined.

End RefreshWitnesses.

Section GoogleClaims.
Import Auth.
Context `{Security} `{GoogleVerifier}.

Lemma bind_account_Raise (db : DB) (payload : GoogleAuthIn) (now_ : Z)
    (s e : string) (ex : exn) :
  bind_account db payload now_ s e = Raise ex -> ex = IdentityConflict.
Proof.
  unfold bind_account.
  destruct (first_user_by_sub db s); [discriminate|].
  destruct (Py.truthy_opt_str _); [|discriminate].
  destruct (first_guest_by_device db _); [|discriminate].
  destruct (first_email_owner db e _); [|discriminate].
  destruct (bool_decide _); [|discriminate].
  intros [= <-]. reflexivity.
Qed.

(** The guest branch, when it is reached. *)
Lemma bind_account_guest (db : DB) (payload : GoogleAuthIn) (now_ : Z)
    (s e d : string) (g : User.t) :
  payload_device_id payload = Some d -> Py.truthy_str d = true ->
  first_user_by_sub db s = None ->
  first_guest_by_device db d = Some g ->
  bind_account db payload now_ s e
  = match first_email_owner db e (User.id g) with
    | Some _ =>
        Raise IdentityConflict
    | None =>
        Return (update_user db (User.id g) (upgrade_guest s e now_), User.id g)
    end.
Proof.
  intros Ed Td Es Eg. unfold bind_account. rewrite Es, Ed. simpl.
  rewrite Td, Eg.
  destruct (first_email_owner db e (User.id g)) as [o|] eqn:Eo; [|reflexivity].
  destruct (bool_decide_reflect (User.google_sub o <> Some s)) as [N|N];
    [reflexivity|].
  exfalso. apply N. intros Eq.
  pose proof (first_Some_inv _ _ _ Eo) as [_ Hin].
  exact (first_None_inv _ _ o Es Hin Eq).
Qed.

(** C7. When no account has the subject id and the device id finds a
    guest account whose id no other holder of the (normalised) email
    shares, the login answers with the guest's account id, adds no
    account, and rewrites the guest's row in place: status user, provider
    google, the subject id and the email, the device id kept. *)
Theorem guest_upgraded_in_place (db : DB) (payload : GoogleAuthIn)
    (request : Request) (env : Env) (info : Claims) (s e d : string)
    (g : User.t) :
  verify_google_token (id_token payload) = Return info ->
  sub info = Some s -> email info = Some e ->
  payload_device_id payload = Some d -> Py.truthy_str d = true ->
  first_user_by_sub db s = None ->
  first_guest_by_device db d = Some g ->
  first_email_owner db (Py.strip (Py.lower e)) (User.id g) = None ->
  let r := google_auth db payload request env in
  let e' := Py.strip (Py.lower e) in
  exists out u',
    r.2 = Return out /\
    out_user_id out = User.id g /\ out_is_guest out = false /\
    length (users r.1) = length (users db) /\
    upgrade_guest s e' (now env) g ∈ users r.1 /\
    first_user_by_id r.1 (User.id g) = Some u' /\
    User.status u' = "user"%string /\
    User.auth_provider u' = Some "google"%string /\
    User.google_sub u' = Some s /\
    User.email u' = Some e'.
Proof.
  intros Ev Es Ee Ed Td Esub Eg Eo r e'. subst r.
  rewrite (google_auth_bound _ _ _ _ _ _ _ Ev Es Ee).
  rewrite (bind_account_guest _ _ _ _ _ _ _ Ed Td Esub Eg).
  rewrite Eo. fold e'. cbn [fst snd].
  set (db1 := update_user db (User.id g) (upgrade_guest s e' (now env))).
  destruct (issue_session_spec db1 (User.id g) request env)
    as (Us & _ & Ei & Eg' & _).
  pose proof (first_Some_inv _ _ _ Eg) as [_ Hin].
  set (f := fun u => if decide (User.id u = User.id g)
                     then upgrade_guest s e' (now env) u else u).
  assert (Hu : users db1 = f <$> users db) by reflexivity.
  destruct (first_is_Some (fun v => User.id v = User.id g) _ g Hin eq_refl)
    as [x Ex].
  pose proof (first_Some_inv _ _ _ Ex) as [Hx _].
  exists (issue_session db1 (User.id g) request env).2,
         (upgrade_guest s e' (now env) x).
  repeat split; try assumption; try reflexivity.
  - rewrite Us, Hu. apply length_fmap.
  - rewrite Us, Hu.
    replace (upgrade_guest s e' (now env) g) with (f g).
    + apply list_elem_of_fmap_2. exact Hin.
    + unfold f. destruct (decide _) as [_|n]; [reflexivity|].
      destruct n. reflexivity.
  - unfold first_user_by_id. rewrite Us, Hu.
    rewrite (first_fmap _ f).
    + rewrite Ex. simpl. unfold f.
      destruct (decide _) as [_|n]; [reflexivity|contradiction].
    + intros v. unfold f. destruct (decide _); reflexivity.
Qed.

(** C8. In the guest branch, when another account holds the claimed
    (normalised) email under a different subject id, the login raises
    IdentityConflict (409) and the store, the guest's row included, is
    as it was. *)
Theorem guest_upgrade_conflict (db : DB) (payload : GoogleAuthIn)
    (request : Request) (env : Env) (info : Claims) (s e d : string)
    (g owner : User.t) :
  verify_google_token (id_token payload) = Return info ->
  sub info = Some s -> email info = Some e ->
  payload_device_id payload = Some d -> Py.truthy_str d = true ->
  first_user_by_sub db s = None ->
  first_guest_by_device db d = Some g ->
  owner ∈ users db ->
  User.id owner <> User.id g ->
  User.email owner = Some (Py.strip (Py.lower e)) ->
  User.google_sub owner <> Some s ->
  let r := google_auth db payload request env in
  r.2 = Raise IdentityConflict /\
  r.1 = db /\
  first_guest_by_device r.1 d = Some g /\
  User.status g = "guest"%string /\
  User.google_sub g <> Some s.
Proof.
  intros Ev Es Ee Ed Td Esub Eg Hin Hid Hem Hsub r. subst r.
  rewrite (google_auth_bound _ _ _ _ _ _ _ Ev Es Ee).
  rewrite (bind_account_guest _ _ _ _ _ _ _ Ed Td Esub Eg).
  destruct (first_is_Some
              (fun u => User.email u = Some (Py.strip (Py.lower e))
                        /\ User.id u <> User.id g)
              _ owner Hin (conj Hem Hid)) as [o Eo].
  unfold first_email_owner. rewrite Eo. cbn [fst snd].
  pose proof (first_Some_inv _ _ _ Eg) as [[_ Hst] Hg].
  repeat split; try assumption.
  exact (first_None_inv _ _ g Esub Hg).
Qed.

(** C9, as stated, fails: claims that carry no [email_verified] at all
    are let through, and an account is created for them. *)
Lemma unstated_email_verification_proceeds :
  let r := google_auth (H := Sample.security) (H0 := Sample.verifier)
             Sample.empty_db (mkGoogleAuthIn "token-g3-unstated" None)
             Sample.request0 Sample.env1 in
  verify_oauth2_token (GoogleVerifier := Sample.verifier) "token-g3-unstated"
  = Some (mkClaims (Some "g3"%string) (Some "c@x.com"%string) None) /\
  r.2 = Return (mkGoogleAuthOut 1 "at" 900 false "secret-1" 900) /\
  users r.1 = [User.mk 1 "user" (Some "google"%string) (Some "g3"%string)
                       (Some "c@x.com"%string) None 100 (Some 100)].
Proof. vm_compute. repeat split. Qed.

(** C9, amended.  The login raises UnverifiedIdentity (a 401), and leaves
    the store untouched, exactly when the assertion does not verify, the
    email is missing or empty, the [email_verified] claim is present and
    false, or the subject id is missing or empty.  Claims whose
    [email_verified] is true or absent proceed. *)
Theorem google_auth_unverified_iff (db : DB) (payload : GoogleAuthIn)
    (request : Request) (env : Env) :
  let r := google_auth db payload request env in
  ((exists ex, r.2 = Raise ex /\ UnverifiedIdentity ex) <->
   match verify_oauth2_token (id_token payload) with
   | None => True
   | Some info =>
       Py.truthy_opt_str (email info) = false \/
       email_verified info = Some false \/
       Py.truthy_opt_str (sub info) = false
   end) /\
  ((exists ex, r.2 = Raise ex /\ UnverifiedIdentity ex) -> r.1 = db).
Proof.
  intros r. subst r.
  destruct (verify_google_token (id_token payload)) as [info|ex] eqn:Ev.
  - pose proof Ev as Ev'. apply verify_google_token_Return in Ev'.
    destruct Ev' as (Eo & Ee & Evf & Es). rewrite Eo.
    pose proof Ee as Ee'. pose proof Es as Es'.
    apply truthy_opt_str_Some in Ee', Es'.
    destruct Ee' as (e & Ee' & _), Es' as (s & Es' & _).
    rewrite (google_auth_bound _ _ _ _ _ _ _ Ev Es' Ee').
    assert (N : ~ exists ex,
                (match bind_account db payload (now env) s
                         (Py.strip (Py.lower e)) with
                 | Return (db1, uid) =>
                     ((issue_session db1 uid request env).1,
                      Return (issue_session db1 uid request env).2)
                 | Raise ex0 => (db, Raise ex0)
                 end).2 = Raise ex /\ UnverifiedIdentity ex).
    { intros (ex & E & detail & ->).
      destruct (bind_account _ _ _ _ _) as [[db1 uid]|ex0] eqn:Eb;
        [discriminate|].
      apply bind_account_Raise in Eb. subst ex0. discriminate. }
    split; [split|]; intros Hc.
    + contradiction.
    + destruct Hc as [Hc|[Hc|Hc]]; congruence.
    + contradiction.
  - assert (Eq : google_auth db payload request env = (db, Raise ex)).
    { unfold google_auth, mbind, outcome_bind. rewrite Ev. reflexivity. }
    rewrite Eq. split; [split|]; intros Hc.
    + destruct (verify_oauth2_token (id_token payload)) as [info|] eqn:Eo;
        [|exact I].
      destruct (Py.truthy_opt_str (email info)) eqn:Ee; [|auto].
      destruct (decide (email_verified info = Some false)) as [Evf|Evf]; [auto|].
      destruct (Py.truthy_opt_str (sub info)) eqn:Es; [|auto].
      assert (Hr : verify_google_token (id_token payload) = Return info)
        by (apply verify_google_token_Return; auto).
      congruence.
    + exists ex. split; [reflexivity|].
      apply (verify_google_token_Raise _ _ Ev).
    + reflexivity.
Qed.

End GoogleClaims.

Section GoogleWitnesses.
Import Auth Sample.

Lemma guest_upgraded_in_place_witness :
  let r := google_auth db_guest (mkGoogleAuthIn "token-g1" (Some "dev-1"%string))
                       request0 env1 in
  exists out u',
    r.2 = Return out /\
    out_user_id out = 1 /\ out_is_guest out = false /\
    length (users r.1) = 1%nat /\
    upgrade_guest "g1" "a@x.com" 100 guest1 ∈ users r.1 /\
    first_user_by_id r.1 1 = Some u' /\
    User.status u' = "user"%string /\
    User.auth_provider u' = Some "google"%string /\
    User.google_sub u' = Some "g1"%string /\
    User.email u' = Some "a@x.com"%string.
Proof.
  apply (guest_upgraded_in_place db_guest
           (mkGoogleAuthIn "token-g1" (Some "dev-1"%string)) request0 env1
           (mkClaims (Some "g1"%string) (Some "a@x.com"%string) (Some true))
           "g1" "a@x.com" "dev-1" guest1); reflexivity.
Defined.

Lemma guest_upgrade_conflict_witness :
  let r := google_auth db_conflict
             (mkGoogleAuthIn "token-g2" (Some "dev-2"%string)) request0 env1 in
  r.2 = Raise IdentityConflict /\
  r.1 = db_conflict /\
  first_guest_by_device r.1 "dev-2" = Some guest2 /\
  User.status guest2 = "guest"%string /\
  User.google_sub guest2 <> Some "g2"%string.
Proof.
  apply (guest_upgrade_conflict db_conflict
           (mkGoogleAuthIn "token-g2" (Some "dev-2"%string)) request0 env1
           (mkClaims (Some "g2"%string) (Some "a@x.com"%string) (Some true))
           "g2" "a@x.com" "dev-2" guest2 user_g1);
    try reflexivity.
  - apply list_elem_of_here.
  - discriminate.
  - discriminate.
Defined.

Lemma google_auth_unverified_iff_witness :
  let r := google_auth empty_db (mkGoogleAuthIn "token-g4-unverified" None)
                       request0 env1 in
  (exists ex, r.2 = Raise ex /\ UnverifiedIdentity ex) /\ r.1 = empty_db.
Proof.
  destruct (google_auth_unverified_iff empty_db
              (mkGoogleAuthIn "token-g4-unverified" None) request0 env1)
    as [[_ W1] W2].
  assert (E : exists ex,
             (google_auth empty_db (mkGoogleAuthIn "token-g4-unverified" None)
                          request0 env1).2 = Raise ex
             /\ UnverifiedIdentity ex).
  { apply W1. simpl. right. left. reflexivity. }
  split; [exact E|apply W2, E].
Defined.

End GoogleWitnesses.

(** ** Two rotations of one token *)

Section RaceFacts.
Import Auth Race.
Context `{Security}.

(** A request that runs alone is the handler. *)
Lemma lone_request (db : DB) (payload : RefreshIn) (request : Request)
    (env : Env) (t : thread) :
  run (mkConfig db (Start payload request env) t) [A; A; A]
  = mkConfig (refresh_token db payload request env).1
             (Done (refresh_token db payload request env).2) t.
Proof.
  unfold run, refresh_token. simpl.
  destruct (refresh_lookup db payload (now env)) as [[old_rt user]|ex]; simpl.
  - destruct (refresh_issue _ user request env) as [db2 out]. reflexivity.
  - reflexivity.
Qed.

Lemma run_swap (s : list tid) (c : config) :
  run (swap c) (other <$> s) = swap (run c s).
Proof.
  revert c. induction s as [|i s IH]; intros c; [reflexivity|].
  rewrite fmap_cons. unfold run in *. simpl. rewrite <- IH. f_equal.
  destruct i; unfold swap, step_config; simpl.
  - destruct (step (store c) (thread_a c)). reflexivity.
  - destruct (step (store c) (thread_b c)). reflexivity.
Qed.

Lemma other_other (s : list tid) : other <$> (other <$> s) = s.
Proof.
  induction s as [|i s IH]; [reflexivity|].
  rewrite !fmap_cons, IH. destruct i; reflexivity.
Qed.

Lemma a_revoked_first_step (h : string) (c : config) (i : tid) :
  a_revoked_first h c ->
  a_revoked_first h (step_config c i) /\
  (i = A \/ succeeded (thread_a c) -> succeeded (thread_a (step_config c i))) /\
  (i = B \/ rejected (thread_b c) -> rejected (thread_b (step_config c i))).
Proof.
  intros (R & Ha & Hb). destruct c as [db ta tb]. simpl in *.
  destruct i; simpl.
  - destruct Ha as [(user & request & env & ->)|(out & ->)]; simpl.
    + pose proof (refresh_issue_spec db user request env) as (_ & Et & _).
      destruct (refresh_issue db user request env) as [db2 out2].
      simpl in *. repeat split; simpl.
      * rewrite Et. apply first_revoked_snoc, R.
      * right. exists out2. reflexivity.
      * exact Hb.
      * intros _. exists out2. reflexivity.
      * intros [[=]|Hr]. exact Hr.
    + repeat split; simpl; try assumption.
      * right. exists out. reflexivity.
      * intros _. exists out. reflexivity.
      * intros [[=]|Hr]. exact Hr.
  - destruct Hb as [(payload & request & env & -> & Eh)| -> ]; simpl.
    + assert (El : refresh_lookup db payload (now env) = Raise InvalidCredential).
      { destruct R as (rt & E & Rv). unfold refresh_lookup, first_token_by_hash.
        rewrite Eh, E. destruct (RefreshToken.revoked_at rt);
          [reflexivity|congruence]. }
      rewrite El. repeat split; simpl; try assumption.
      * right. reflexivity.
      * intros [[=]|Hs]. exact Hs.
    + repeat split; simpl; try assumption.
      * right. reflexivity.
      * intros [[=]|Hs]. exact Hs.
Qed.

Lemma a_revoked_first_run (h : string) (s : list tid) (c : config) :
  a_revoked_first h c ->
  a_revoked_first h (run c s) /\
  (A ∈ s \/ succeeded (thread_a c) -> succeeded (thread_a (run c s))) /\
  (B ∈ s \/ rejected (thread_b c) -> rejected (thread_b (run c s))).
Proof.
  revert c. induction s as [|i s IH]; intros c Inv.
  - repeat split; [apply Inv|apply Inv|apply Inv| |].
    + intros [Hin|Hs]; [inversion Hin|exact Hs].
    + intros [Hin|Hr]; [inversion Hin|exact Hr].
  - destruct (a_revoked_first_step h c i Inv) as (Inv' & Sa & Sb).
    destruct (IH _ Inv') as (Inv'' & Ra & Rb).
    change (run c (i :: s)) with (run (step_config c i) s).
    split; [exact Inv''|]. split.
    + intros [Hin|Hs]; apply Ra.
      * apply elem_of_cons in Hin. destruct Hin as [E|Hin]; [symmetry in E|]; auto.
      * auto.
    + intros [Hin|Hr]; apply Rb.
      * apply elem_of_cons in Hin. destruct Hin as [E|Hin]; [symmetry in E|]; auto.
      * auto.
Qed.

(** After its first two steps a request that found a usable row has
    committed the revocation and nothing else. *)
Lemma two_steps_revoke (db : DB) (payload : RefreshIn) (request : Request)
    (env : Env) (old_rt : RefreshToken.t) (user : User.t) (t : thread) :
  refresh_lookup db payload (now env) = Return (old_rt, user) ->
  run (mkConfig db (Start payload request env) t) [A; A]
  = mkConfig (refresh_revoke db old_rt (now env)) (Revoked user request env) t
  /\ first_revoked (refresh_tokens (refresh_revoke db old_rt (now env)))
                   (hash_refresh_token (refresh_token_in payload))
  /\ length (refresh_tokens (refresh_revoke db old_rt (now env)))
     = length (refresh_tokens db).
Proof.
  intros El. unfold run. simpl. rewrite El. simpl. split; [reflexivity|].
  split.
  - apply refresh_lookup_Return in El. destruct El as (E & _ & _).
    exists (revoke_row (RefreshToken.id old_rt) (now env) old_rt). split.
    + fold (revoke_row (RefreshToken.id old_rt) (now env)).
      rewrite (first_fmap _ (revoke_row _ _)) by apply revoke_row_hash.
      unfold first_token_by_hash in E. rewrite E. reflexivity.
    + unfold revoke_row. destruct (decide _) as [_|n]; [discriminate|].
      destruct n. reflexivity.
  - apply length_fmap.
Qed.

End RaceFacts.

Section RaceClaims.
Import Auth Race.
Context `{Security}.

Lemma first_revoker_wins (db : DB) (payload : RefreshIn)
    (requestA requestB : Request) (envA envB : Env)
    (old_rt : RefreshToken.t) (user : User.t) (rest : list tid) :
  refresh_lookup db payload (now envA) = Return (old_rt, user) ->
  A ∈ rest -> B ∈ rest ->
  let c := run (mkConfig db (Start payload requestA envA)
                            (Start payload requestB envB))
               (A :: A :: rest) in
  succeeded (thread_a c) /\ rejected (thread_b c).
Proof.
  intros El HA HB c. subst c.
  change (run ?c0 (A :: A :: rest)) with (run (run c0 [A; A]) rest).
  destruct (two_steps_revoke db payload requestA envA old_rt user
              (Start payload requestB envB) El) as (-> & R & _).
  destruct (a_revoked_first_run
              (hash_refresh_token (refresh_token_in payload)) rest
              (mkConfig (refresh_revoke db old_rt (now envA))
                        (Revoked user requestA envA)
                        (Start payload requestB envB))) as (_ & Sa & Sb).
  - split; [exact R|]. split; simpl.
    + left. eauto.
    + left. eauto.
  - split; [apply Sa|apply Sb]; left; assumption.
Qed.

(** C1, amended.  Of two rotations presenting the same plaintext, once
    one has committed its revocation before the other looks the token up,
    that one returns a new pair and the other is refused with
    InvalidCredential, however the remaining steps interleave.  The
    revocation is a commit of its own, an unconditional write after the
    earlier read: the store after it holds the old row revoked and no
    replacement yet. *)
Theorem rotation_exclusive_after_revocation (db : DB) (payload : RefreshIn)
    (requestA requestB : Request) (envA envB : Env)
    (rtA rtB : RefreshToken.t) (userA userB : User.t) (rest : list tid) :
  refresh_lookup db payload (now envA) = Return (rtA, userA) ->
  refresh_lookup db payload (now envB) = Return (rtB, userB) ->
  A ∈ rest -> B ∈ rest ->
  let c0 := mkConfig db (Start payload requestA envA)
                        (Start payload requestB envB) in
  (succeeded (thread_a (run c0 (A :: A :: rest))) /\
   rejected (thread_b (run c0 (A :: A :: rest)))) /\
  (succeeded (thread_b (run c0 (B :: B :: rest))) /\
   rejected (thread_a (run c0 (B :: B :: rest)))) /\
  (first_revoked (refresh_tokens (store (run c0 [A; A])))
                 (hash_refresh_token (refresh_token_in payload)) /\
   length (refresh_tokens (store (run c0 [A; A])))
   = length (refresh_tokens db)).
Proof.
  intros ElA ElB HA HB c0. split; [|split].
  - apply (first_revoker_wins db payload requestA requestB envA envB rtA userA
             rest ElA HA HB).
  - assert (Es : run c0 (B :: B :: rest)
                 = swap (run (swap c0) (A :: A :: (other <$> rest)))).
    { rewrite <- (run_swap (A :: A :: (other <$> rest)) (swap c0)).
      rewrite !fmap_cons, other_other. reflexivity. }
    rewrite Es. simpl.
    apply (first_revoker_wins db payload requestB requestA envB envA rtB userB
             (other <$> rest) ElB).
    + change A with (other B). apply list_elem_of_fmap_2. exact HB.
    + change B with (other A). apply list_elem_of_fmap_2. exact HA.
  - destruct (two_steps_revoke db payload requestA envA rtA userA
                (Start payload requestB envB) ElA) as (E & R & L).
    subst c0. rewrite E. simpl. split; assumption.
Qed.

End RaceClaims.

Section RaceWitnesses.
Import Auth Race Sample.

(** C1, as stated, fails: when both requests look the token up before
    either commits its revocation, both return a new token pair. *)
Lemma both_racing_rotations_succeed :
  let c := run (mkConfig db_token (Start (mkRefreshIn "secret-0") request0 env1)
                                  (Start (mkRefreshIn "secret-0") request0 env2))
               [A; B; A; A; B; B] in
  thread_a c = Done (Return (mkRefreshOut "at" 900 "secret-1" 900)) /\
  thread_b c = Done (Return (mkRefreshOut "at" 900 "secret-2" 900)) /\
  refresh_tokens (store c)
  = [RefreshToken.mk 1 1 "h:secret-0" 1000 (Some 200) 0 None (Some ""%string);
     RefreshToken.mk 2 1 "h:secret-1" 1000 None 100
                     (Some "10.0.0.1"%string) (Some "ua"%string);
     RefreshToken.mk 3 1 "h:secret-2" 1100 None 200
                     (Some "10.0.0.1"%string) (Some "ua"%string)].
Proof. vm_compute. repeat split. Qed.

Lemma rotation_exclusive_after_revocation_witness :
  let c0 := mkConfig db_token (Start (mkRefreshIn "secret-0") request0 env1)
                              (Start (mkRefreshIn "secret-0") request0 env2) in
  (succeeded (thread_a (run c0 [A; A; B; A])) /\
   rejected (thread_b (run c0 [A; A; B; A]))) /\
  (succeeded (thread_b (run c0 [B; B; B; A])) /\
   rejected (thread_a (run c0 [B; B; B; A]))) /\
  (first_revoked (refresh_tokens (store (run c0 [A; A]))) "h:secret-0" /\
   length (refresh_tokens (store (run c0 [A; A]))) = 1%nat).
Proof.
  assert (HA : A ∈ [B; A]) by apply list_elem_of_further, list_elem_of_here.
  assert (HB : B ∈ [B; A]) by apply list_elem_of_here.
  exact (rotation_exclusive_after_revocation db_token (mkRefreshIn "secret-0")
           request0 request0 env1 env2
           (RefreshToken.mk 1 1 "h:secret-0" 1000 None 0 None (Some ""%string))
           (RefreshToken.mk 1 1 "h:secret-0" 1000 None 0 None (Some ""%string))
           user_g1 user_g1 [B; A] eq_refl eq_refl HA HB).
Defined.

End RaceWitnesses.

(** ** The streak *)

Section StreakFacts.
Import Streak.

Lemma active_pos (activity_dates : gset date) (d : date) :
  active activity_dates (Z.pos d) <-> d ∈ activity_dates.
Proof.
  unfold active. split.
  - intros (d' & E & Hin). injection E as ->. exact Hin.
  - intros Hin. exists d. auto.
Qed.

Lemma not_active_nonpos (activity_dates : gset date) (o : Z) :
  o <= 0 -> ~ active activity_dates o.
Proof. intros Ho (d & E & _). lia. Qed.

(** The loop, by induction on the date it starts from: with one unit of
    fuel per date down to [date.min] it either stops at the first date
    that is not active, or walks off [date.min]. *)
Lemma while_loop_spec (activity_dates : gset date) (cur : date) :
  forall (fuel : nat) (streak : Z),
    (Pos.to_nat cur <= fuel)%nat ->
    (exists n,
        0 <= n < Z.pos cur /\
        while_loop fuel activity_dates cur streak = Some (Return (streak + n)) /\
        (forall i, 0 <= i < n -> active activity_dates (Z.pos cur - i)) /\
        ~ active activity_dates (Z.pos cur - n))
    \/ (while_loop fuel activity_dates cur streak = Some (Raise OverflowError) /\
        forall d : date, (d <= cur)%positive -> d ∈ activity_dates).
Proof.
  induction cur as [|p IH] using Pos.peano_ind; intros fuel streak Hfuel.
  - destruct fuel as [|fuel']; [simpl in Hfuel; lia|]. simpl.
    destruct (decide (_ ∈ activity_dates)) as [Hin|Hout].
    + right. split; [reflexivity|].
      intros d Hd. replace d with 1%positive by lia. exact Hin.
    + left. exists 0. repeat split; try lia.
      * rewrite Z.add_0_r. reflexivity.
      * rewrite Z.sub_0_r, active_pos. exact Hout.
  - destruct fuel as [|fuel']; [lia|]. simpl.
    destruct (decide (_ ∈ activity_dates)) as [Hin|Hout].
    + unfold minus_one_day, date_min.
      case_decide; [lia|].
      rewrite Pos.pred_succ.
      destruct (IH fuel' (streak + 1)) as [(n & Hn & E & Hact & Hstop)|[E Hall]];
        [lia| |].
      * left. exists (n + 1). repeat split; try lia.
        -- rewrite E. do 2 f_equal. lia.
        -- intros i Hi. destruct (decide (i = 0)) as [->|Hi0].
           ++ rewrite Z.sub_0_r, active_pos. exact Hin.
           ++ replace (Z.pos (Pos.succ p) - i) with (Z.pos p - (i - 1)) by lia.
              apply Hact. lia.
        -- replace (Z.pos (Pos.succ p) - (n + 1)) with (Z.pos p - n) by lia.
           exact Hstop.
      * right. split; [exact E|].
        intros d Hd. destruct (decide (d = Pos.succ p)) as [->|Hne];
          [exact Hin|]. apply Hall. lia.
    + left. exists 0. repeat split; try lia.
      * rewrite Z.add_0_r. reflexivity.
      * rewrite Z.sub_0_r, active_pos. exact Hout.
Qed.

(** At most one length is a streak. *)
Lemma is_streak_unique (today : date) (activity_dates : gset date) (n m : Z) :
  is_streak today activity_dates n -> is_streak today activity_dates m -> n = m.
Proof.
  unfold is_streak, days_before.
  intros (Hn & An & Sn) (Hm & Am & Sm).
  destruct (Z.lt_trichotomy n m) as [L|[E|L]]; [|exact E|].
  - destruct Sn. apply Am. lia.
  - destruct Sm. apply An. lia.
Qed.

Lemma elem_of_all_dates_to (today d : date) :
  d ∈ all_dates_to today <-> (d <= today)%positive.
Proof.
  unfold all_dates_to. rewrite elem_of_list_to_set, list_elem_of_fmap.
  split.
  - intros (k & -> & Hk). apply elem_of_seq in Hk. lia.
  - intros Hd. exists (Pos.to_nat d). split.
    + symmetry. apply Pos2Nat.id.
    + apply elem_of_seq. lia.
Qed.

End StreakFacts.

Section StreakClaims.
Import Streak.

(** C10, as stated, fails: on the set of every date from [date.min] to
    today (3 November 2026, ordinal 739923) the loop subtracts a day from
    [date.min] and the call ends in OverflowError, although 739923 is a
    streak length in the claim's sense. *)
Lemma streak_overflows_on_all_dates :
  calc_current_streak 739923%positive (all_dates_to 739923%positive) = Some (Raise OverflowError)
  /\ is_streak 739923%positive (all_dates_to 739923%positive) 739923.
Proof.
  split.
  - unfold calc_current_streak.
    destruct (decide (all_dates_to 739923%positive = ∅)) as [E|_].
    + assert (Hin : 1%positive ∈ all_dates_to 739923%positive)
        by (apply elem_of_all_dates_to; lia).
      rewrite E in Hin. destruct (not_elem_of_empty (C := gset date) _ Hin).
    + destruct (while_loop_spec (all_dates_to 739923%positive) 739923%positive
                  (Pos.to_nat 739923%positive) 0 (le_n _))
        as [(n & Hn & _ & _ & Hstop)|[E _]]; [|exact E].
      destruct Hstop.
      replace (Z.pos 739923 - n) with (Z.pos (Z.to_pos (Z.pos 739923 - n)))
        by (rewrite Z2Pos.id; lia).
      apply active_pos, elem_of_all_dates_to. lia.
  - unfold is_streak, days_before. repeat split; [lia| |].
    + intros i Hi.
      replace (Z.pos 739923 - i) with (Z.pos (Z.to_pos (Z.pos 739923 - i)))
        by (rewrite Z2Pos.id; lia).
      apply active_pos, elem_of_all_dates_to. lia.
    + apply not_active_nonpos. lia.
Qed.

(** C10, amended.  [calc_current_streak] always terminates.  For every
    set of dates that lacks some date from [date.min] to today it returns
    the one n >= 0 such that today, today-1, ..., today-(n-1) are in the
    set and today-n is not; that is 0 when the set is empty or lacks
    today.  (On a set that holds every date from [date.min] to today it
    raises OverflowError.) *)
Theorem calc_current_streak_correct (today : date) (activity_dates : gset date) :
  calc_current_streak today activity_dates <> None /\
  ((exists d : date, (d <= today)%positive /\ d ∉ activity_dates) ->
   exists n,
     calc_current_streak today activity_dates = Some (Return n) /\
     is_streak today activity_dates n /\
     (forall m, is_streak today activity_dates m -> m = n) /\
     (activity_dates = ∅ \/ today ∉ activity_dates -> n = 0)) /\
  ((forall d : date, (d <= today)%positive -> d ∈ activity_dates) ->
   calc_current_streak today activity_dates = Some (Raise OverflowError)).
Proof.
  unfold calc_current_streak.
  destruct (decide (activity_dates = ∅)) as [E|NE].
  - split; [discriminate|]. split.
    + intros _. assert (St : is_streak today activity_dates 0).
      { unfold is_streak, days_before. repeat split; [lia|lia|].
        rewrite Z.sub_0_r, active_pos, E. apply not_elem_of_empty. }
      exists 0. repeat split; try apply St.
      intros m Hm. apply (is_streak_unique _ _ _ _ Hm St).
    + intros Hall. specialize (Hall today (Pos.le_refl _)).
      rewrite E in Hall. destruct (not_elem_of_empty (C := gset date) _ Hall).
  - destruct (while_loop_spec activity_dates today (Pos.to_nat today) 0 (le_n _))
      as [(n & Hn & Eq & Hact & Hstop)|[Eq Hall]].
    + rewrite Eq, Z.add_0_l. split; [discriminate|]. split.
      * intros _. assert (St : is_streak today activity_dates n).
        { unfold is_streak, days_before. repeat split; [lia|exact Hact|exact Hstop]. }
        exists n. repeat split; try apply St.
        -- intros m Hm. apply (is_streak_unique _ _ _ _ Hm St).
        -- intros [E|Hout]; [contradiction|].
           destruct (decide (n = 0)) as [E0|N0]; [exact E0|].
           destruct Hout. apply active_pos.
           replace (Z.pos today) with (Z.pos today - 0) by lia.
           apply Hact. lia.
      * intros Hall. destruct Hstop.
        replace (Z.pos today - n) with (Z.pos (Z.to_pos (Z.pos today - n)))
          by (rewrite Z2Pos.id; lia).
        apply active_pos, Hall. lia.
    + rewrite Eq. split; [discriminate|]. split.
      * intros (d & Hd & Hout). destruct Hout. apply Hall, Hd.
      * intros _. reflexivity.
Qed.

Lemma calc_current_streak_correct_witness :
  let activity_dates : gset date := {[ 739923; 739922; 739920 ]}%positive in
  exists n,
    calc_current_streak 739923%positive activity_dates = Some (Return n) /\
    is_streak 739923%positive activity_dates n /\
    (forall m, is_streak 739923%positive activity_dates m -> m = n) /\
    (activity_dates = ∅ \/ 739923%positive ∉ activity_dates -> n = 0).
Proof.
  intros activity_dates.
  destruct (calc_current_streak_correct 739923%positive activity_dates) as (_ & W & _).
  apply W. exists 739921%positive. split; [lia|].
  subst activity_dates. apply (bool_decide_unpack _). vm_compute. exact I.
Defined.

End StreakClaims.

(** * Further properties *)

(** ** The ledger writer *)

Section LedgerMore.
Import Ledger.

Lemma rows_of_key_nil_of_first (db : Table) (u : Z) (k : string) :
  first_by_key db u k = None -> rows_of_key db u k = [].
Proof. apply head_None_nil. Qed.

Lemma rows_of_ref_nil_of_first (db : Table) (u : Z) (s : string) (r : Z) :
  first_by_ref db u s r = None -> rows_of_ref db u s r = [].
Proof. apply head_None_nil. Qed.

(** The ledger is append-only: a call keeps every row where it is and
    adds at most one, the row of its own arguments. *)
Theorem add_ledger_entry_append_only (db : Table) (now uid d : Z)
    (src : string) (ref : option Z) (key : option string) :
  let r := add_ledger_entry db now uid d src ref key in
  (r.1 = db /\
   exists row, row ∈ db /\ user_id row = uid /\ r.2 = delta row) \/
  (r.1 = db ++ [mkCoinsLedger uid d src ref key now] /\ r.2 = d).
Proof.
  intros r. subst r.
  destruct (add_ledger_entry_cases db now uid d src ref key)
    as [(k & row & -> & Ek & E & ->)|[(r & row & Hk & -> & Er & ->)
                                      |(Hk & Hr & ->)]]; simpl.
  - left. split; [reflexivity|]. exists row.
    destruct (first_Some_inv _ _ _ E) as [[Eu _] Hin]. auto.
  - left. split; [reflexivity|]. exists row.
    destruct (first_Some_inv _ _ _ Er) as [[Eu _] Hin]. auto.
  - right. auto.
Qed.

(** What a call does to the balances: the called account's balance rises
    by the returned delta when a row was inserted and stays when the call
    was deduplicated; no other account's balance moves. *)
Theorem add_ledger_entry_balance (db : Table) (now uid d : Z)
    (src : string) (ref : option Z) (key : option string) :
  let r := add_ledger_entry db now uid d src ref key in
  get_coins_balance r.1 uid
  = get_coins_balance db uid
    + (if decide (length r.1 = length db) then 0 else r.2) /\
  (forall other, other <> uid ->
                 get_coins_balance r.1 other = get_coins_balance db other).
Proof.
  intros r. subst r.
  destruct (add_ledger_entry_cases db now uid d src ref key)
    as [(k & row & -> & Ek & E & ->)|[(r & row & Hk & -> & Er & ->)
                                      |(Hk & Hr & ->)]]; simpl.
  - destruct (decide _) as [_|n]; [|contradiction]. split; [lia|reflexivity].
  - destruct (decide _) as [_|n]; [|contradiction]. split; [lia|reflexivity].
  - rewrite length_app. simpl.
    destruct (decide _) as [L|_]; [lia|].
    rewrite !get_coins_balance_sum. split.
    + rewrite sum_of_deltas_app. simpl.
      destruct (decide _) as [_|n]; [lia|contradiction].
    + intros other Ho. rewrite !get_coins_balance_sum, sum_of_deltas_app. simpl.
      destruct (decide _) as [Eq|_]; [congruence|lia].
Qed.

Lemma add_ledger_entry_dedup_unique (db : Table) (now uid d : Z)
    (src : string) (ref : option Z) (key : option string) :
  dedup_unique db ->
  dedup_unique (add_ledger_entry db now uid d src ref key).1.
Proof.
  intros [Uk Ur].
  destruct (add_ledger_entry_cases db now uid d src ref key)
    as [(k & row & -> & Ek & E & ->)|[(r & row & Hk & -> & Er & ->)
                                      |(Hk & Hr & ->)]]; simpl;
    [split; assumption|split; assumption|].
  split.
  - intros u k Tk. unfold rows_of_key. rewrite filter_app, length_app.
    rewrite filter_cons, filter_nil. simpl.
    destruct (decide _) as [[<- ->]|_]; simpl.
    + fold (rows_of_key db uid k).
      rewrite (rows_of_key_nil_of_first db uid k (Hk k eq_refl Tk)).
      simpl. lia.
    + specialize (Uk u k Tk). unfold rows_of_key in Uk. lia.
  - intros u s r. unfold rows_of_ref. rewrite filter_app, length_app.
    rewrite filter_cons, filter_nil. simpl.
    destruct (decide _) as [(<- & <- & ->)|_]; simpl.
    + fold (rows_of_ref db uid src r).
      rewrite (rows_of_ref_nil_of_first db uid src r (Hr r eq_refl)).
      simpl. lia.
    + specialize (Ur u s r). unfold rows_of_ref in Ur. lia.
Qed.

(** Whatever calls are made, in whatever order, a ledger that starts
    empty never holds two rows of one account for the same non-empty
    idempotency key, nor two for the same (source, ref_id). *)
Theorem add_entries_dedup_unique (es : list entry) :
  dedup_unique (add_entries [] es).
Proof.
  assert (G : forall db, dedup_unique db -> dedup_unique (add_entries db es)).
  { induction es as [|e es IH]; intros db U; [exact U|].
    simpl. apply IH. apply add_ledger_entry_dedup_unique, U. }
  apply G. split; intros; simpl; lia.
Qed.



End LedgerMore.

(** ** The stores the handlers leave behind *)

Section StoreShapes.
Import Auth.
Context `{Security} `{GoogleVerifier}.

Lemma issue_session_db (db : DB) (uid : Z) (request : Request) (env : Env) :
  (issue_session db uid request env).1
  = mkDB (users db) (refresh_tokens db ++ [issued_row db uid request env])
         (next_user_id db) (next_token_id db + 1).
Proof.
  unfold issue_session, issued_row, add_token.
  destruct (create_access_token uid false) as [[a b] c].
  destruct (refresh_token_expiry env) as [x y]. reflexivity.
Qed.

Lemma refresh_issue_db (db : DB) (user : User.t) (request : Request) (env : Env) :
  (refresh_issue db user request env).1
  = mkDB (users db)
         (refresh_tokens db ++ [issued_row db (User.id user) request env])
         (next_user_id db) (next_token_id db + 1).
Proof.
  unfold refresh_issue, issued_row, add_token.
  destruct (refresh_token_expiry env) as [x y].
  destruct (create_access_token _ _) as [[a b] c]. reflexivity.
Qed.

(** The three ways [bind_account] can commit. *)
Lemma bind_account_shape (db db' : DB) (payload : GoogleAuthIn) (now_ : Z)
    (s e : string) (uid : Z) :
  bind_account db payload now_ s e = Return (db', uid) ->
  (exists user, first_user_by_sub db s = Some user /\ uid = User.id user /\
                db' = update_user db uid (touch_user e now_))
  \/ (exists d guest,
         first_user_by_sub db s = None /\
         payload_device_id payload = Some d /\ Py.truthy_str d = true /\
         first_guest_by_device db d = Some guest /\ uid = User.id guest /\
         db' = update_user db uid (upgrade_guest s e now_))
  \/ (exists device,
         first_user_by_sub db s = None /\
         (forall d, payload_device_id payload = Some d -> Py.truthy_str d = true ->
                    first_guest_by_device db d = None) /\
         uid = next_user_id db /\
         db' = (add_user db (new_user s e device now_)).1).
Proof.
  unfold bind_account.
  destruct (first_user_by_sub db s) as [user|] eqn:Esub.
  - intros [= <- <-]. left. eauto.
  - destruct (payload_device_id payload) as [d|] eqn:Ed; simpl.
    + destruct (Py.truthy_str d) eqn:Td.
      * destruct (first_guest_by_device db d) as [guest|] eqn:Eg.
        -- intros E. right. left. exists d, guest.
           destruct (first_email_owner db e (User.id guest)) as [o|].
           ++ destruct (bool_decide _); [discriminate|].
              injection E as <- <-. auto 10.
           ++ injection E as <- <-. auto 10.
        -- intros [= <- <-]. right. right. exists (Some d).
           repeat split. intros d0 [= <-] _. exact Eg.
      * intros [= <- <-]. right. right. exists None.
        repeat split. intros d0 [= <-] Hd. congruence.
    + intros [= <- <-]. right. right. exists None.
      repeat split. intros d0 [=].
Qed.

(** A login either fails and leaves the store, or binds an account and
    issues a session on top. *)
Lemma google_auth_cases (db : DB) (payload : GoogleAuthIn) (request : Request)
    (env : Env) :
  (exists ex, google_auth db payload request env = (db, Raise ex) /\
              (UnverifiedIdentity ex \/ ex = IdentityConflict))
  \/ (exists info s e db0 uid,
         verify_google_token (id_token payload) = Return info /\
         sub info = Some s /\ email info = Some e /\
         bind_account db payload (now env) s (Py.strip (Py.lower e))
         = Return (db0, uid) /\
         google_auth db payload request env
         = ((issue_session db0 uid request env).1,
            Return (issue_session db0 uid request env).2)).
Proof.
  destruct (verify_google_token (id_token payload)) as [info|ex] eqn:Ev.
  - pose proof Ev as Ev'. apply verify_google_token_Return in Ev'.
    destruct Ev' as (_ & Ee & _ & Es).
    apply truthy_opt_str_Some in Ee, Es.
    destruct Ee as (e & Ee & _), Es as (s & Es & _).
    rewrite (google_auth_bound _ _ _ _ _ _ _ Ev Es Ee).
    destruct (bind_account _ _ _ _ _) as [[db0 uid]|ex] eqn:Eb.
    + right. exists info, s, e, db0, uid. auto.
    + left. exists ex. split; [reflexivity|].
      right. apply (bind_account_Raise _ _ _ _ _ _ Eb).
  - left. exists ex. split.
    + unfold google_auth, mbind, outcome_bind. rewrite Ev. reflexivity.
    + left. apply (verify_google_token_Raise _ _ Ev).
Qed.

Lemma refresh_token_cases (db : DB) (payload : RefreshIn) (request : Request)
    (env : Env) :
  (exists ex, refresh_token db payload request env = (db, Raise ex))
  \/ (exists old_rt user,
         refresh_lookup db payload (now env) = Return (old_rt, user) /\
         refresh_token db payload request env
         = ((refresh_issue (refresh_revoke db old_rt (now env)) user request env).1,
            Return (refresh_issue (refresh_revoke db old_rt (now env))
                                  user request env).2)).
Proof.
  destruct (refresh_lookup db payload (now env)) as [[old_rt user]|ex] eqn:El.
  - right. exists old_rt, user. split; [reflexivity|].
    apply (refresh_token_usable _ _ request _ _ _ El).
  - left. exists ex. unfold refresh_token. rewrite El. reflexivity.
Qed.

(** *** Primary keys *)

Lemma primary_keys_update_user (db : DB) (i : Z) (f : User.t -> User.t) :
  (forall u, User.id (f u) = User.id u) ->
  primary_keys db -> primary_keys (update_user db i f).
Proof.
  intros Hf (U1 & U2 & T1 & T2). unfold primary_keys. simpl.
  assert (Eid : User.id <$> ((fun u => if decide (User.id u = i) then f u else u)
                               <$> users db) = User.id <$> users db).
  { rewrite <- list_fmap_compose. apply list_fmap_ext.
    intros k u _. simpl. destruct (decide _); [apply Hf|reflexivity]. }
  rewrite Eid. repeat split; try assumption.
  apply Forall_fmap. eapply Forall_impl; [exact U2|].
  intros u Hu. simpl. destruct (decide _); [rewrite Hf|]; exact Hu.
Qed.

Lemma primary_keys_add_user (db : DB) (mk : Z -> User.t) :
  (forall i, User.id (mk i) = i) ->
  primary_keys db -> primary_keys (add_user db mk).1.
Proof.
  intros Hmk (U1 & U2 & T1 & T2). unfold primary_keys. simpl.
  repeat split; try assumption.
  - rewrite fmap_app. simpl. rewrite Hmk.
    apply NoDup_app. repeat split; [exact U1| |apply NoDup_singleton].
    intros x Hx Hin. apply list_elem_of_singleton in Hin. subst x.
    apply list_elem_of_fmap in Hx. destruct Hx as (u & Eu & Hu).
    rewrite Forall_forall in U2. specialize (U2 u Hu). lia.
  - apply Forall_app. split.
    + eapply Forall_impl; [exact U2|]. intros u Hu. simpl in *. lia.
    + apply Forall_singleton. rewrite Hmk. lia.
Qed.

Lemma primary_keys_revoke (db : DB) (i now_ : Z) :
  primary_keys db -> primary_keys (update_token db i (set_revoked_at (Some now_))).
Proof.
  intros (U1 & U2 & T1 & T2). unfold primary_keys. simpl.
  assert (Eid : RefreshToken.id
                  <$> ((fun r => if decide (RefreshToken.id r = i)
                                 then set_revoked_at (Some now_) r else r)
                         <$> refresh_tokens db)
                = RefreshToken.id <$> refresh_tokens db).
  { rewrite <- list_fmap_compose. apply list_fmap_ext.
    intros k r _. simpl. destruct (decide _); reflexivity. }
  rewrite Eid. repeat split; try assumption.
  apply Forall_fmap. eapply Forall_impl; [exact T2|].
  intros r Hr. simpl. destruct (decide _); exact Hr.
Qed.

Lemma primary_keys_issue (db : DB) (row : RefreshToken.t) :
  RefreshToken.id row = next_token_id db ->
  primary_keys db ->
  primary_keys (mkDB (users db) (refresh_tokens db ++ [row])
                     (next_user_id db) (next_token_id db + 1)).
Proof.
  intros Hid (U1 & U2 & T1 & T2). unfold primary_keys. simpl.
  repeat split; try assumption.
  - rewrite fmap_app. simpl. rewrite Hid.
    apply NoDup_app. repeat split; [exact T1| |apply NoDup_singleton].
    intros x Hx Hin. apply list_elem_of_singleton in Hin. subst x.
    apply list_elem_of_fmap in Hx. destruct Hx as (r & Er & Hr).
    rewrite Forall_forall in T2. specialize (T2 r Hr). lia.
  - apply Forall_app. split.
    + eapply Forall_impl; [exact T2|]. intros r Hr. simpl in *. lia.
    + apply Forall_singleton. rewrite Hid. lia.
Qed.

Lemma primary_keys_bind_account (db db' : DB) (payload : GoogleAuthIn)
    (now_ : Z) (s e : string) (uid : Z) :
  bind_account db payload now_ s e = Return (db', uid) ->
  primary_keys db -> primary_keys db'.
Proof.
  intros Eb PK. apply bind_account_shape in Eb.
  destruct Eb as [(user & _ & _ & ->)|[(d & guest & _ & _ & _ & _ & _ & ->)
                                       |(device & _ & _ & _ & ->)]].
  - apply primary_keys_update_user; [reflexivity|exact PK].
  - apply primary_keys_update_user; [reflexivity|exact PK].
  - apply primary_keys_add_user; [reflexivity|exact PK].
Qed.

Lemma primary_keys_serve (db : DB) (c : call) :
  primary_keys db -> primary_keys (serve db c).
Proof.
  intros PK. destruct c as [payload request env|payload request env]; simpl.
  - destruct (google_auth_cases db payload request env)
      as [(ex & -> & _)|(info & s & e & db0 & uid & _ & _ & _ & Eb & ->)];
      [exact PK|].
    simpl. rewrite issue_session_db.
    apply primary_keys_issue; [reflexivity|].
    apply (primary_keys_bind_account _ _ _ _ _ _ _ Eb PK).
  - destruct (refresh_token_cases db payload request env)
      as [(ex & ->)|(old_rt & user & _ & ->)]; [exact PK|].
    simpl. rewrite refresh_issue_db.
    apply primary_keys_issue; [reflexivity|].
    apply primary_keys_revoke, PK.
Qed.

End StoreShapes.

Section StoreInvariants.
Import Auth.
Context `{Security} `{GoogleVerifier}.

(** Whatever requests are served, ids stay distinct in both tables and
    below the next id handed out: no handler reuses or rewrites a primary
    key. *)
Theorem primary_keys_serve_all (cs : list call) (db : DB) :
  primary_keys db -> primary_keys (serve_all db cs).
Proof.
  revert db. induction cs as [|c cs IH]; intros db PK; [exact PK|].
  simpl. apply IH, primary_keys_serve, PK.
Qed.

(** An update of the rows with one id, on a table of distinct ids, is an
    update of one row. *)
Lemma fmap_by_id_insert (f : RefreshToken.t -> RefreshToken.t)
    (l : list RefreshToken.t) (i : nat) (x : RefreshToken.t) :
  NoDup (RefreshToken.id <$> l) ->
  l !! i = Some x ->
  (fun r => if decide (RefreshToken.id r = RefreshToken.id x) then f r else r)
    <$> l = <[i := f x]> l.
Proof.
  revert i. induction l as [|y l IH]; intros i ND Hi; [discriminate|].
  rewrite fmap_cons in ND. apply NoDup_cons in ND. destruct ND as [Hy ND].
  destruct i as [|i]; simpl in Hi.
  - injection Hi as ->. simpl.
    destruct (decide _) as [_|n]; [|contradiction]. f_equal.
    rewrite <- (list_fmap_id l) at 2. apply list_fmap_ext.
    intros k r Hk. simpl. destruct (decide _) as [E|_]; [|reflexivity].
    destruct Hy. rewrite <- E. apply list_elem_of_fmap_2.
    apply list_elem_of_lookup. eauto.
  - simpl. destruct (decide _) as [E|_].
    + destruct Hy. rewrite E. apply list_elem_of_fmap_2.
      apply list_elem_of_lookup. eauto.
    + f_equal. apply IH; assumption.
Qed.

(** On a store with distinct token ids, a successful rotation rewrites
    exactly one row, the first row of the presented hash, whose
    [revoked_at] becomes the request's clock; it appends one active row
    for the same account, and leaves the accounts alone. *)
Theorem rotation_rewrites_one_row (db db' : DB) (payload : RefreshIn)
    (request : Request) (env : Env) (out : RefreshOut) :
  primary_keys db ->
  refresh_token db payload request env = (db', Return out) ->
  exists (i : nat) (old_rt : RefreshToken.t),
    refresh_tokens db !! i = Some old_rt /\
    first_token_by_hash db (hash_refresh_token (refresh_token_in payload))
    = Some old_rt /\
    usable (now env) old_rt /\
    refresh_tokens db'
    = <[i := set_revoked_at (Some (now env)) old_rt]> (refresh_tokens db)
      ++ [RefreshToken.mk (next_token_id db) (RefreshToken.user_id old_rt)
            (hash_refresh_token (generate_refresh_token env))
            (refresh_token_expiry env).1 None (now env)
            (client_host request) (Some (request_ua request))] /\
    users db' = users db /\
    refresh_token_out out = generate_refresh_token env.
Proof.
  intros (_ & _ & ND & _) E.
  apply refresh_token_Return_inv in E.
  destruct E as (old_rt & user & El & -> & ->).
  apply refresh_lookup_Return in El. destruct El as (Ef & Hu & Eu).
  pose proof (first_Some_inv _ _ _ Ef) as [_ Hin].
  apply list_elem_of_lookup in Hin. destruct Hin as [i Hi].
  pose proof (first_Some_inv _ _ _ Eu) as [Hid _].
  exists i, old_rt. repeat split; try assumption; try apply Hu.
  - rewrite refresh_issue_db. simpl. unfold issued_row. simpl.
    rewrite Hid. f_equal.
    apply (fmap_by_id_insert (set_revoked_at (Some (now env))) _ _ _ ND Hi).
  - rewrite refresh_issue_db. reflexivity.
  - apply refresh_issue_spec.
Qed.

Lemma token_kept_refl (r : RefreshToken.t) : token_kept r r.
Proof. unfold token_kept. auto 10. Qed.

Lemma token_kept_trans (r1 r2 r3 : RefreshToken.t) :
  token_kept r1 r2 -> token_kept r2 r3 -> token_kept r1 r3.
Proof.
  unfold token_kept. intros (A1 & A2 & A3 & A4 & A5 & A6) (B1 & B2 & B3 & B4 & B5 & B6).
  repeat split; try congruence. auto.
Qed.

Lemma token_kept_revoke_row (i now_ : Z) (r : RefreshToken.t) :
  token_kept r (revoke_row i now_ r).
Proof.
  unfold revoke_row. destruct (decide _); [|apply token_kept_refl].
  unfold token_kept. simpl. repeat split. discriminate.
Qed.

Lemma tokens_retained_serve (db : DB) (c : call) (i : nat) (r : RefreshToken.t) :
  refresh_tokens db !! i = Some r ->
  exists r', refresh_tokens (serve db c) !! i = Some r' /\ token_kept r r'.
Proof.
  intros Hi. destruct c as [payload request env|payload request env]; simpl.
  - destruct (google_auth_tokens db payload request env) as [->|[x ->]].
    + exists r. split; [exact Hi|apply token_kept_refl].
    + exists r. split; [|apply token_kept_refl].
      rewrite lookup_app_l; [exact Hi|]. apply (lookup_lt_Some _ _ _ Hi).
  - destruct (refresh_token_tokens db payload request env) as [->|(j & x & ->)].
    + exists r. split; [exact Hi|apply token_kept_refl].
    + exists (revoke_row j (now env) r). split; [|apply token_kept_revoke_row].
      rewrite lookup_app_l.
      * rewrite list_lookup_fmap, Hi. reflexivity.
      * rewrite length_fmap. apply (lookup_lt_Some _ _ _ Hi).
Qed.

(** Token rows are retained: whatever requests are served, a row stays
    at its place with its id, owner, hash, expiry and creation time, and a
    row that was revoked is never active again. *)
Theorem tokens_retained (cs : list call) (db : DB) (i : nat)
    (r : RefreshToken.t) :
  refresh_tokens db !! i = Some r ->
  exists r', refresh_tokens (serve_all db cs) !! i = Some r' /\ token_kept r r'.
Proof.
  revert db r. induction cs as [|c cs IH]; intros db r Hi.
  - exists r. split; [exact Hi|apply token_kept_refl].
  - simpl. destruct (tokens_retained_serve db c i r Hi) as (r1 & H1 & K1).
    destruct (IH _ _ H1) as (r2 & H2 & K2).
    exists r2. split; [exact H2|]. apply (token_kept_trans _ _ _ K1 K2).
Qed.

(** A refused rotation consumes nothing: whenever [POST /refresh] raises,
    the store is as it was.  It raises "User not found" exactly when the
    presented token has a usable match whose owner is missing, and the
    token is then still usable. *)
Theorem refresh_token_failure_keeps_store (db : DB) (payload : RefreshIn)
    (request : Request) (env : Env) :
  let r := refresh_token db payload request env in
  (forall ex, r.2 = Raise ex -> r.1 = db) /\
  (r.2 = Raise (HTTPException HTTP_401_UNAUTHORIZED "User not found") <->
   exists rt,
     first_token_by_hash db (hash_refresh_token (refresh_token_in payload))
     = Some rt /\
     usable (now env) rt /\
     first_user_by_id db (RefreshToken.user_id rt) = None).
Proof.
  intros r. subst r. unfold refresh_token, refresh_lookup, usable.
  destruct (first_token_by_hash db _) as [rt|].
  - destruct (RefreshToken.revoked_at rt) as [t|] eqn:Er; simpl.
    + repeat split; try discriminate.
      intros (rt' & [= <-] & [E _] & _). congruence.
    + destruct (Z.leb_spec (RefreshToken.expires_at rt) (now env)) as [L|L].
      * repeat split; try discriminate.
        intros (rt' & [= <-] & [_ E] & _). lia.
      * destruct (first_user_by_id db _) as [u|] eqn:Eu.
        -- destruct (refresh_issue _ u request env) as [db2 out]. simpl.
           repeat split; try discriminate.
           intros (rt' & [= <-] & _ & E). congruence.
        -- simpl. repeat split; try reflexivity.
           intros _. exists rt. auto.
  - simpl. repeat split; try discriminate.
    intros (rt' & [=] & _).
Qed.

(** A login never ends in a [KeyError]: every exception of
    [POST /auth/google] is a 401 of the claims check or the 409 of the
    guest branch, and the store is then as it was. *)
Theorem google_auth_failure_keeps_store (db : DB) (payload : GoogleAuthIn)
    (request : Request) (env : Env) :
  let r := google_auth db payload request env in
  forall ex, r.2 = Raise ex ->
             r.1 = db /\ (UnverifiedIdentity ex \/ ex = IdentityConflict).
Proof.
  intros r ex. subst r.
  destruct (google_auth_cases db payload request env)
    as [(ex' & -> & Hex)|(info & s & e & db0 & uid & _ & _ & _ & _ & ->)];
    simpl.
  - intros [= <-]. auto.
  - discriminate.
Qed.

Lemma substring_length_le (n : nat) (s : string) :
  (String.length (substring 0 n s) <= n)%nat.
Proof.
  revert s. induction n as [|n IH]; intros s.
  - destruct s; simpl; lia.
  - destruct s as [|c s]; simpl; [lia|]. specialize (IH s). lia.
Qed.

Lemma user_agents_fit_serve (db : DB) (c : call) :
  user_agents_fit db -> user_agents_fit (serve db c).
Proof.
  unfold user_agents_fit. intros F.
  assert (Row : forall db0 uid request env ua,
             RefreshToken.created_user_agent (issued_row db0 uid request env)
             = Some ua -> (String.length ua <= 255)%nat).
  { intros db0 uid request env ua [= <-]. apply substring_length_le. }
  assert (Rev : forall i now_,
             Forall (fun r => forall ua, RefreshToken.created_user_agent r = Some ua
                                         -> (String.length ua <= 255)%nat)
                    (revoke_row i now_ <$> refresh_tokens db)).
  { intros i now_. apply Forall_fmap. eapply Forall_impl; [exact F|].
    intros r Hr ua. simpl. unfold revoke_row. destruct (decide _); apply Hr. }
  destruct c as [payload request env|payload request env]; simpl.
  - destruct (google_auth_cases db payload request env)
      as [(ex & -> & _)|(info & s & e & db0 & uid & _ & _ & _ & Eb & ->)];
      [exact F|].
    simpl. rewrite issue_session_db. simpl.
    apply bind_account_tokens in Eb. destruct Eb as (-> & _).
    apply Forall_app. split; [exact F|]. apply Forall_singleton, Row.
  - destruct (refresh_token_cases db payload request env)
      as [(ex & ->)|(old_rt & user & _ & ->)]; [exact F|].
    simpl. rewrite refresh_issue_db. simpl.
    apply Forall_app. split; [apply Rev|]. apply Forall_singleton, Row.
Qed.

(** Whatever user-agent headers the requests carry, every stored
    [created_user_agent] has at most 255 characters. *)
Theorem user_agents_fit_serve_all (cs : list call) :
  user_agents_fit (serve_all (mkDB [] [] 1 1) cs).
Proof.
  assert (G : forall db, user_agents_fit db -> user_agents_fit (serve_all db cs)).
  { induction cs as [|c cs IH]; intros db F; [exact F|].
    simpl. apply IH, user_agents_fit_serve, F. }
  apply G. apply Forall_nil_2.
Qed.

End StoreInvariants.

Section StoreWitnesses.
Import Auth Sample.

Lemma primary_keys_serve_all_witness :
  primary_keys
    (serve_all empty_db
       [PostAuthGoogle (mkGoogleAuthIn "token-g1" None) request0 env1;
        PostRefresh (mkRefreshIn "secret-1") request0 env2]).
Proof.
  apply (primary_keys_serve_all).
  repeat split; simpl; constructor.
Defined.

Lemma rotation_rewrites_one_row_witness :
  exists (i : nat) (old_rt : RefreshToken.t),
    refresh_tokens db_token !! i = Some old_rt /\
    first_token_by_hash db_token "h:secret-0"
    = Some old_rt /\
    usable 100 old_rt /\
    refresh_tokens
      (refresh_token db_token
                     (mkRefreshIn "secret-0") request0 env1).1
    = <[i := set_revoked_at (Some 100) old_rt]> (refresh_tokens db_token)
      ++ [RefreshToken.mk 2 (RefreshToken.user_id old_rt) "h:secret-1" 1000
            None 100 (Some "10.0.0.1"%string) (Some "ua"%string)] /\
    users (refresh_token db_token
                         (mkRefreshIn "secret-0") request0 env1).1
    = users db_token /\
    "secret-1"%string = "secret-1"%string.
Proof.
  assert (PK : primary_keys db_token).
  { repeat split; simpl; repeat constructor; try lia.
    - intros Hin. inversion Hin.
    - intros Hin. inversion Hin. }
  exact (rotation_rewrites_one_row db_token
           (refresh_token db_token (mkRefreshIn "secret-0") request0 env1).1
           (mkRefreshIn "secret-0") request0 env1
           (mkRefreshOut "at" 900 "secret-1" 900) PK eq_refl).
Defined.

Lemma tokens_retained_witness :
  exists r',
    refresh_tokens
      (serve_all db_token
         [PostRefresh (mkRefreshIn "secret-0") request0 env1;
          PostRefresh (mkRefreshIn "secret-0") request0 env2])
      !! 0%nat = Some r' /\
    token_kept
      (RefreshToken.mk 1 1 "h:secret-0" 1000 None 0 None (Some ""%string)) r'.
Proof.
  apply (tokens_retained).
  reflexivity.
Defined.

Lemma refresh_token_failure_keeps_store_witness :
  let db := mkDB [] (refresh_tokens db_token) 2 2 in
  (refresh_token db (mkRefreshIn "secret-0")
                 request0 env1).2
  = Raise (HTTPException HTTP_401_UNAUTHORIZED "User not found") /\
  (refresh_token db (mkRefreshIn "secret-0")
                 request0 env1).1 = db.
Proof.
  intros db.
  destruct (refresh_token_failure_keeps_store db
              (mkRefreshIn "secret-0") request0 env1) as [W1 W2].
  assert (E : (refresh_token db (mkRefreshIn "secret-0")
                 request0 env1).2
              = Raise (HTTPException HTTP_401_UNAUTHORIZED "User not found")).
  { apply W2. eexists. split; [reflexivity|]. split; [|reflexivity].
    split; [reflexivity|simpl; lia]. }
  split; [exact E|apply (W1 _ E)].
Defined.

Lemma google_auth_failure_keeps_store_witness :
  (google_auth db_conflict
     (mkGoogleAuthIn "token-g2" (Some "dev-2"%string))
     request0 env1).1 = db_conflict /\
  (UnverifiedIdentity IdentityConflict \/ IdentityConflict = IdentityConflict).
Proof.
  apply (google_auth_failure_keeps_store db_conflict
           (mkGoogleAuthIn "token-g2" (Some "dev-2"%string))
           request0 env1).
  reflexivity.
Defined.

End StoreWitnesses.

(** ** Logging in *)

Section LoginFacts.
Import Auth.
Context `{Security} `{GoogleVerifier}.


(** A login with a subject id that an account is bound to is a login to
    that account: it answers with its id, adds no account and upgrades no
    guest, whatever device id the request carries.  The row keeps its
    email unless it had none, and is marked user, google, logged in now;
    rows of other ids are as they were. *)
Theorem bound_login (db : DB) (payload : GoogleAuthIn) (request : Request)
    (env : Env) (info : Claims) (s e : string) (user : User.t) :
  verify_google_token (id_token payload) = Return info ->
  sub info = Some s -> email info = Some e ->
  first_user_by_sub db s = Some user ->
  let r := google_auth db payload request env in
  let e' := Py.strip (Py.lower e) in
  exists out u',
    r.2 = Return out /\ out_user_id out = User.id user /\
    out_refresh_token out = generate_refresh_token env /\
    length (users r.1) = length (users db) /\
    first_user_by_sub r.1 s = Some u' /\
    User.id u' = User.id user /\
    User.email u'
    = (if Py.truthy_opt_str (User.email user) then User.email user else Some e') /\
    User.status u' = "user"%string /\
    User.auth_provider u' = Some "google"%string /\
    User.device_id u' = User.device_id user /\
    User.last_login_at u' = Some (now env) /\
    (forall v, v ∈ users db -> User.id v <> User.id user -> v ∈ users r.1).
Proof.
  intros Ev Es Ee Eu r e'. subst r.
  rewrite (google_auth_bound _ _ _ _ _ _ _ Ev Es Ee). fold e'.
  unfold bind_account. rewrite Eu. cbn [fst snd].
  remember (update_user db (User.id user) (touch_user e' (now env))) as db1
    eqn:Edb1.
  rewrite issue_session_db.
  destruct (issue_session_spec db1 (User.id user) request env)
    as (_ & _ & Ei & _ & Ep).
  exists (issue_session db1 (User.id user) request env).2,
         (touch_user e' (now env) user).
  set (f := fun u => if decide (User.id u = User.id user)
                     then touch_user e' (now env) u else u).
  assert (Hu : users db1 = f <$> users db) by (rewrite Edb1; reflexivity).
  clear Edb1. simpl. repeat split; try assumption.
  - rewrite Hu. apply length_fmap.
  - unfold first_user_by_sub. simpl. rewrite Hu, (first_fmap _ f).
    + unfold first_user_by_sub in Eu. rewrite Eu. simpl. unfold f.
      destruct (decide _) as [_|n]; [reflexivity|contradiction].
    + intros v. unfold f. destruct (decide _); reflexivity.
  - destruct (Py.truthy_opt_str (User.email user)); reflexivity.
  - destruct (bool_decide_reflect (User.status user <> "user"%string)) as [N|N];
      [reflexivity|]. destruct (decide (User.status user = "user"%string));
      [assumption|contradiction].
  - destruct (bool_decide_reflect
                (User.auth_provider user <> Some "google"%string)) as [N|N];
      [reflexivity|].
    destruct (decide (User.auth_provider user = Some "google"%string));
      [assumption|contradiction].
  - intros v Hv Hne. rewrite Hu.
    replace v with (f v).
    + apply list_elem_of_fmap_2, Hv.
    + unfold f. destruct (decide _); [contradiction|reflexivity].
Qed.

(** A login with an unknown subject id that finds no guest to upgrade,
    because the request has no device id, an empty one, or one no guest
    account has, appends one account with the next id: a user bound to
    the subject id and the normalised email, with the device id when the
    request had a non-empty one and none otherwise. *)
Theorem new_account_login (db : DB) (payload : GoogleAuthIn) (request : Request)
    (env : Env) (info : Claims) (s e : string) :
  verify_google_token (id_token payload) = Return info ->
  sub info = Some s -> email info = Some e ->
  first_user_by_sub db s = None ->
  (forall d, payload_device_id payload = Some d -> Py.truthy_str d = true ->
             first_guest_by_device db d = None) ->
  let r := google_auth db payload request env in
  let device :=
    if Py.truthy_opt_str (payload_device_id payload)
    then payload_device_id payload else None in
  exists out,
    r.2 = Return out /\ out_user_id out = next_user_id db /\
    out_is_guest out = false /\
    users r.1
    = users db ++ [User.mk (next_user_id db) "user" (Some "google"%string)
                           (Some s) (Some (Py.strip (Py.lower e))) device
                           (now env) (Some (now env))] /\
    next_user_id r.1 = next_user_id db + 1.
Proof.
  intros Ev Es Ee Eu Hg r device. subst r device.
  rewrite (google_auth_bound _ _ _ _ _ _ _ Ev Es Ee).
  unfold bind_account. rewrite Eu.
  destruct (payload_device_id payload) as [d|] eqn:Ed; simpl.
  - destruct (Py.truthy_str d) eqn:Td.
    + rewrite (Hg d eq_refl Td). cbn [fst snd add_user].
      rewrite issue_session_db. simpl.
      eexists. split; [reflexivity|]. repeat split; apply issue_session_spec.
    + cbn [fst snd add_user]. rewrite issue_session_db. simpl.
      eexists. split; [reflexivity|]. repeat split; apply issue_session_spec.
  - cbn [fst snd add_user]. rewrite issue_session_db. simpl.
    eexists. split; [reflexivity|]. repeat split; apply issue_session_spec.
Qed.


End LoginFacts.

Section LoginWitnesses.
Import Auth Sample.

Lemma bound_login_witness :
  let db := mkDB [user_g1; guest2] [] 3 1 in
  let r := google_auth db (mkGoogleAuthIn "token-g1" (Some "dev-2"%string))
                       request0 env1 in
  exists out u',
    r.2 = Return out /\ out_user_id out = 1 /\
    out_refresh_token out = "secret-1"%string /\
    length (users r.1) = 2%nat /\
    first_user_by_sub r.1 "g1" = Some u' /\
    User.id u' = 1 /\
    User.email u' = Some "a@x.com"%string /\
    User.status u' = "user"%string /\
    User.auth_provider u' = Some "google"%string /\
    User.device_id u' = None /\
    User.last_login_at u' = Some 100 /\
    (forall v, v ∈ users db -> User.id v <> 1 -> v ∈ users r.1).
Proof.
  intros db.
  exact (bound_login db (mkGoogleAuthIn "token-g1" (Some "dev-2"%string))
           request0 env1
           (mkClaims (Some "g1"%string) (Some "a@x.com"%string) (Some true))
           "g1" "a@x.com" user_g1 eq_refl eq_refl eq_refl eq_refl).
Defined.

Lemma new_account_login_witness :
  let r := google_auth db_guest (mkGoogleAuthIn "token-g1" (Some ""%string))
                       request0 env1 in
  exists out,
    r.2 = Return out /\ out_user_id out = 2 /\ out_is_guest out = false /\
    users r.1
    = [guest1;
       User.mk 2 "user" (Some "google"%string) (Some "g1"%string)
               (Some "a@x.com"%string) None 100 (Some 100)] /\
    next_user_id r.1 = 3.
Proof.
  apply (new_account_login db_guest (mkGoogleAuthIn "token-g1" (Some ""%string))
           request0 env1
           (mkClaims (Some "g1"%string) (Some "a@x.com"%string) (Some true))
           "g1" "a@x.com"); try reflexivity.
  intros d [= <-] Hd. discriminate Hd.
Defined.


End LoginWitnesses.

(** ** One account per subject id *)

Section UniqueSubs.
Import Auth.
Context `{Security} `{GoogleVerifier}.

Lemma fmap_by_key_insert {X : Type} (key : X -> Z) (f : X -> X)
    (l : list X) (i : nat) (x : X) :
  NoDup (key <$> l) ->
  l !! i = Some x ->
  (fun r => if decide (key r = key x) then f r else r) <$> l = <[i := f x]> l.
Proof.
  revert i. induction l as [|y l IH]; intros i ND Hi; [discriminate|].
  rewrite fmap_cons in ND. apply NoDup_cons in ND. destruct ND as [Hy ND].
  destruct i as [|i]; simpl in Hi.
  - injection Hi as ->. simpl.
    destruct (decide _) as [_|n]; [|contradiction]. f_equal.
    rewrite <- (list_fmap_id l) at 2. apply list_fmap_ext.
    intros k r Hk. simpl. destruct (decide _) as [E|_]; [|reflexivity].
    destruct Hy. rewrite <- E. apply list_elem_of_fmap_2.
    apply list_elem_of_lookup. eauto.
  - simpl. destruct (decide _) as [E|_].
    + destruct Hy. rewrite E. apply list_elem_of_fmap_2.
      apply list_elem_of_lookup. eauto.
    + f_equal. apply IH; assumption.
Qed.

Lemma omap_insert_elem {X Y : Type} (k : X -> option Y) (l : list X) (i : nat)
    (x' : X) (s a : Y) :
  k x' = Some s ->
  a ∈ omap k (<[i := x']> l) -> a = s \/ a ∈ omap k l.
Proof.
  intros Hk. revert i. induction l as [|y l IH]; intros i Ha; [right; exact Ha|].
  destruct i as [|i]; simpl in Ha.
  - rewrite Hk in Ha. apply elem_of_cons in Ha. destruct Ha as [->|Ha]; [auto|].
    right. simpl. destruct (k y); [apply list_elem_of_further|]; exact Ha.
  - simpl. destruct (k y) as [b|].
    + apply elem_of_cons in Ha. destruct Ha as [->|Ha].
      * right. apply list_elem_of_here.
      * destruct (IH _ Ha) as [->|Hin]; [auto|].
        right. apply list_elem_of_further, Hin.
    + apply (IH _ Ha).
Qed.

Lemma NoDup_omap_insert {X Y : Type} (k : X -> option Y) (l : list X) (i : nat)
    (x' : X) (s : Y) :
  k x' = Some s ->
  s ∉ omap k l ->
  NoDup (omap k l) ->
  NoDup (omap k (<[i := x']> l)).
Proof.
  intros Hk. revert i. induction l as [|y l IH]; intros i Hs ND; [exact ND|].
  destruct i as [|i]; simpl.
  - rewrite Hk. simpl in Hs, ND. destruct (k y) as [b|].
    + apply NoDup_cons in ND. destruct ND as [_ ND].
      apply NoDup_cons. split; [|exact ND].
      intros Hin. apply Hs, list_elem_of_further, Hin.
    + apply NoDup_cons. auto.
  - simpl in Hs, ND. destruct (k y) as [b|].
    + apply NoDup_cons in ND. destruct ND as [Hb ND].
      apply NoDup_cons. split.
      * intros Hin. destruct (omap_insert_elem k l i x' s b Hk Hin) as [->|Hin'].
        -- apply Hs, list_elem_of_here.
        -- contradiction.
      * apply IH; [|exact ND]. intros Hin. apply Hs, list_elem_of_further, Hin.
    + apply IH; assumption.
Qed.

Lemma omap_fmap_keep {X Y : Type} (k : X -> option Y) (f : X -> X)
    (l : list X) :
  (forall x, k (f x) = k x) -> omap k (f <$> l) = omap k l.
Proof.
  intros Hf. induction l as [|y l IH]; [reflexivity|].
  rewrite fmap_cons. cbn [omap list_omap]. rewrite Hf, IH. reflexivity.
Qed.

Lemma sub_not_bound (db : DB) (s : string) :
  first_user_by_sub db s = None -> s ∉ omap User.google_sub (users db).
Proof.
  intros Es Hin. apply list_elem_of_omap in Hin. destruct Hin as (u & Hu & Eu).
  exact (first_None_inv _ _ u Es Hu Eu).
Qed.

Lemma unique_subs_bind_account (db db' : DB) (payload : GoogleAuthIn)
    (now_ : Z) (s e : string) (uid : Z) :
  bind_account db payload now_ s e = Return (db', uid) ->
  primary_keys db -> unique_subs db -> unique_subs db'.
Proof.
  unfold unique_subs. intros Eb (ND & _) US. apply bind_account_shape in Eb.
  destruct Eb as [(user & Es & -> & ->)
                 |[(d & guest & Es & _ & _ & Eg & -> & ->)
                  |(device & Es & _ & -> & ->)]]; simpl.
  - rewrite omap_fmap_keep; [exact US|].
    intros u. destruct (decide _); reflexivity.
  - pose proof (first_Some_inv _ _ _ Eg) as [_ Hin].
    apply list_elem_of_lookup in Hin. destruct Hin as [i Hi].
    rewrite (fmap_by_key_insert User.id (upgrade_guest s e now_) _ i guest ND Hi).
    apply (NoDup_omap_insert User.google_sub _ i _ s);
      [reflexivity|apply sub_not_bound, Es|exact US].
  - rewrite omap_app. simpl. apply NoDup_app.
    repeat split; [exact US| |apply NoDup_singleton].
    intros x Hx Hin. apply list_elem_of_singleton in Hin. subst x.
    exact (sub_not_bound db s Es Hx).
Qed.

Lemma unique_subs_serve (db : DB) (c : call) :
  primary_keys db -> unique_subs db -> unique_subs (serve db c).
Proof.
  intros PK US. destruct c as [payload request env|payload request env]; simpl.
  - destruct (google_auth_cases db payload request env)
      as [(ex & -> & _)|(info & s & e & db0 & uid & _ & _ & _ & Eb & ->)];
      [exact US|].
    simpl. rewrite issue_session_db. unfold unique_subs. simpl.
    apply (unique_subs_bind_account _ _ _ _ _ _ _ Eb PK US).
  - destruct (refresh_token_cases db payload request env)
      as [(ex & ->)|(old_rt & user & _ & ->)]; [exact US|].
    simpl. rewrite refresh_issue_db. exact US.
Qed.

(** Whatever requests are served on a store with distinct account ids,
    no two accounts ever come to be bound to the same Google subject id:
    not by a login to a bound account, not by a guest upgrade, not by a
    new account. *)
Theorem unique_subs_serve_all (cs : list call) (db : DB) :
  primary_keys db -> unique_subs db ->
  unique_subs (serve_all db cs).
Proof.
  revert db. induction cs as [|c cs IH]; intros db PK US; [exact US|].
  simpl. apply IH.
  - apply primary_keys_serve, PK.
  - apply unique_subs_serve; assumption.
Qed.

End UniqueSubs.

Section UniqueSubsWitness.
Import Auth Sample.

Lemma unique_subs_serve_all_witness :
  unique_subs
    (serve_all db_guest
       [PostAuthGoogle (mkGoogleAuthIn "token-g1" (Some "dev-1"%string))
                       request0 env1;
        PostAuthGoogle (mkGoogleAuthIn "token-g2" (Some "dev-1"%string))
                       request0 env2;
        PostAuthGoogle (mkGoogleAuthIn "token-g1" None) request0 env2]).
Proof.
  apply unique_subs_serve_all.
  - repeat split; simpl; repeat constructor; try lia.
    intros Hin. inversion Hin.
  - unfold unique_subs. simpl. constructor.
Defined.

End UniqueSubsWitness.

(** ** Dates, weeks and the pet status *)

Section StatusFacts.
Import Streak Status.

Lemma day_us_Z : Z.of_N day_us = 86400000000.
Proof. vm_compute. reflexivity. Qed.

Lemma datetime_max_Z : Z.of_N datetime_max = 315537897599999999.
Proof. vm_compute. reflexivity. Qed.

Lemma midnight_Z (d : date) :
  Z.of_N (midnight d) = (Z.pos d - 1) * 86400000000.
Proof.
  unfold midnight. rewrite N2Z.inj_mul, day_us_Z, N2Z.inj_sub by lia.
  reflexivity.
Qed.

Lemma plus_days_Z (t : datetime) (n : N) :
  Z.of_N (t + n * day_us) = Z.of_N t + Z.of_N n * 86400000000.
Proof. rewrite N2Z.inj_add, N2Z.inj_mul, day_us_Z. reflexivity. Qed.

(** The date of an instant, by division. *)
Lemma date_of_spec (t : datetime) :
  exists q r : Z,
    Z.of_N t = 86400000000 * q + r /\ 0 <= r < 86400000000 /\ 0 <= q /\
    Z.pos (date_of t) = q + 1.
Proof.
  exists (Z.of_N t / 86400000000), (Z.of_N t mod 86400000000).
  pose proof (Z.div_mod (Z.of_N t) 86400000000 ltac:(lia)) as E.
  pose proof (Z.mod_pos_bound (Z.of_N t) 86400000000 ltac:(lia)) as B.
  pose proof (Z.div_pos (Z.of_N t) 86400000000 ltac:(lia) ltac:(lia)) as P.
  repeat split; try lia.
  unfold date_of.
  rewrite <- (N2Z.inj_pos (N.succ_pos _)), N.succ_pos_spec, N2Z.inj_succ,
    N2Z.inj_div, day_us_Z.
  reflexivity.
Qed.

Lemma date_of_midnight (d : date) : date_of (midnight d) = d.
Proof.
  destruct (date_of_spec (midnight d)) as (q & r & Et & Br & Pq & Ed).
  rewrite midnight_Z in Et. apply Pos2Z.inj. lia.
Qed.

Lemma date_of_mono (t t' : datetime) :
  (t <= t')%N -> Z.pos (date_of t) <= Z.pos (date_of t').
Proof.
  intros Hle.
  destruct (date_of_spec t) as (q & r & Et & Br & Pq & Ed).
  destruct (date_of_spec t') as (q' & r' & Et' & Br' & Pq' & Ed').
  apply N2Z.inj_le in Hle. lia.
Qed.

Lemma weekday_spec (d : date) :
  exists k w : Z, Z.pos d + 6 = 7 * k + w /\ 0 <= w < 7 /\ weekday d = w.
Proof.
  exists ((Z.pos d + 6) / 7), ((Z.pos d + 6) mod 7).
  pose proof (Z.div_mod (Z.pos d + 6) 7 ltac:(lia)) as E.
  pose proof (Z.mod_pos_bound (Z.pos d + 6) 7 ltac:(lia)) as B.
  repeat split; try lia.
Qed.

(** Going back [weekday] days never leaves the calendar, [date.min]
    being a Monday, and lands on the Monday of the week. *)
Lemma monday_of (today : date) :
  Z.pos today <= Z.pos date_max ->
  exists monday,
    date_minus_days today (weekday today) = Return monday /\
    weekday monday = 0 /\
    Z.pos monday <= Z.pos today <= Z.pos monday + 6.
Proof.
  intros Hmax.
  destruct (weekday_spec today) as (k & w & Ek & Bw & Ew).
  unfold date_minus_days. rewrite Ew.
  rewrite (proj2 (Z.ltb_ge (Z.pos today - w) 1)) by lia.
  rewrite (proj2 (Z.ltb_ge (Z.pos date_max) (Z.pos today - w))) by lia.
  exists (Z.to_pos (Z.pos today - w)). split; [reflexivity|].
  assert (Hm : Z.pos (Z.to_pos (Z.pos today - w)) = Z.pos today - w)
    by (apply Z2Pos.id; lia).
  split; [|lia].
  destruct (weekday_spec (Z.to_pos (Z.pos today - w)))
    as (k' & w' & Ek' & Bw' & ->).
  lia.
Qed.

Lemma date_of_le_max (now : datetime) :
  (now <= datetime_max)%N -> Z.pos (date_of now) <= Z.pos date_max.
Proof.
  intros Hmax. destruct (date_of_spec now) as (q & r & Et & Br & Pq & Ed).
  apply N2Z.inj_le in Hmax. rewrite datetime_max_Z in Hmax.
  unfold date_max. lia.
Qed.

Lemma midnight_le (d : date) (t : datetime) :
  Z.pos d <= Z.pos (date_of t) -> (midnight d <= t)%N.
Proof.
  intros Hd. destruct (date_of_spec t) as (q & r & Et & Br & Pq & Ed).
  apply N2Z.inj_le. rewrite midnight_Z. lia.
Qed.

Lemma lt_midnight_next (d : date) (t : datetime) (n : N) :
  Z.pos (date_of t) < Z.pos d + Z.of_N n -> (t < midnight d + n * day_us)%N.
Proof.
  intros Hd. destruct (date_of_spec t) as (q & r & Et & Br & Pq & Ed).
  apply N2Z.inj_lt. rewrite plus_days_Z, midnight_Z. lia.
Qed.

Lemma week_range_cases (now : datetime) :
  (now <= datetime_max)%N ->
  (Z.pos (date_of now) <= 3652054 ->
   exists week_start week_end,
     get_week_range_utc now = Return (week_start, week_end) /\
     (week_start <= now)%N /\ (now < week_end)%N /\
     week_end = (week_start + 7 * day_us)%N /\
     week_start = midnight (date_of week_start) /\
     weekday (date_of week_start) = 0) /\
  (3652055 <= Z.pos (date_of now) ->
   get_week_range_utc now = Raise OverflowError).
Proof.
  intros Hmax. unfold get_week_range_utc.
  pose proof (date_of_le_max now Hmax) as Htoday.
  destruct (monday_of (date_of now) Htoday) as (monday & -> & Hw & Hm).
  unfold datetime_plus_days. unfold date_max in Htoday.
  destruct (weekday_spec monday) as (k & w & Ek & Bw & Ew).
  rewrite Hw in Ew. subst w.
  split; intros Hd.
  - rewrite (proj2 (N.ltb_ge datetime_max (midnight monday + 7 * day_us))).
    + exists (midnight monday), (midnight monday + 7 * day_us)%N.
      split; [reflexivity|].
      split; [apply midnight_le; lia|].
      split; [apply lt_midnight_next; lia|].
      split; [reflexivity|]. rewrite date_of_midnight. auto.
    + apply N2Z.inj_le. rewrite plus_days_Z, midnight_Z, datetime_max_Z. lia.
  - rewrite (proj2 (N.ltb_lt datetime_max (midnight monday + 7 * day_us)));
      [reflexivity|].
    apply N2Z.inj_lt. rewrite plus_days_Z, midnight_Z, datetime_max_Z. lia.
Qed.

(** For every clock reading up to Sunday 26 December 9999,
    [get_week_range_utc] returns the Monday midnight at or before the
    clock and the midnight seven days later, and the clock lies in that
    half-open week.  From Monday 27 December 9999 on, the end of the week
    is past [datetime.max] and the call raises OverflowError. *)
Theorem get_week_range_utc_spec (now : datetime) :
  (now <= datetime_max)%N ->
  (Z.pos (date_of now) <= 3652054 ->
   exists week_start week_end,
     get_week_range_utc now = Return (week_start, week_end) /\
     (week_start <= now)%N /\ (now < week_end)%N /\
     week_end = (week_start + 7 * day_us)%N /\
     week_start = midnight (date_of week_start) /\
     weekday (date_of week_start) = 0) /\
  (3652055 <= Z.pos (date_of now) ->
   get_week_range_utc now = Raise OverflowError).
Proof. exact (week_range_cases now). Qed.

End StatusFacts.

Section ActivityFacts.
Import Streak Status.
Context `{Economy}.

Lemma fold_left_max_spec (l : list datetime) (a : datetime) :
  (fold_left N.max l a = a \/ fold_left N.max l a ∈ l) /\
  (a <= fold_left N.max l a)%N /\
  (forall x, x ∈ l -> (x <= fold_left N.max l a)%N).
Proof.
  revert a. induction l as [|y l IH]; intros a; simpl.
  - split; [left; reflexivity|]. split; [lia|]. intros x Hx. inversion Hx.
  - destruct (IH (N.max a y)) as (Hin & Hge & Hall). split; [|split].
    + destruct Hin as [E|Hin].
      * rewrite E. destruct (N.max_spec a y) as [[_ ->]|[_ ->]].
        -- right. apply list_elem_of_here.
        -- left. reflexivity.
      * right. apply list_elem_of_further, Hin.
    + lia.
    + intros x Hx. apply elem_of_cons in Hx. destruct Hx as [->|Hx].
      * lia.
      * apply Hall, Hx.
Qed.

(** SQL [MAX]: NULL on no rows, otherwise one of the values and at
    least every value. *)
Lemma sql_max_spec (l : list datetime) :
  match sql_max l with
  | None => l = []
  | Some m => m ∈ l /\ forall x, x ∈ l -> (x <= m)%N
  end.
Proof.
  destruct l as [|a l]; simpl; [reflexivity|].
  destruct (fold_left_max_spec l a) as (Hin & Hge & Hall). split.
  - destruct Hin as [->|Hin]; [apply list_elem_of_here|].
    apply list_elem_of_further, Hin.
  - intros x Hx. apply elem_of_cons in Hx. destruct Hx as [->|Hx]; auto.
Qed.

Lemma checkin_times (db : DB) (user_id : Z) (t : datetime) :
  t ∈ omap ended_at
        (filter (fun c => checkin_user_id c = user_id /\
                          checkin_status c ∈ _valid_checkin_statuses /\
                          ended_at c <> None) (checkins db))
  <-> exists c, c ∈ checkins db /\ checkin_user_id c = user_id /\
                checkin_status c ∈ _valid_checkin_statuses /\
                ended_at c = Some t.
Proof.
  rewrite list_elem_of_omap. split.
  - intros (c & Hc & Et). apply list_elem_of_filter in Hc.
    destruct Hc as [(Hu & Hs & _) Hin]. eauto.
  - intros (c & Hin & Hu & Hs & Et). exists c. split; [|exact Et].
    apply list_elem_of_filter. repeat split; try assumption. congruence.
Qed.

Lemma run_times (db : DB) (user_id : Z) (t : datetime) :
  t ∈ omap created_at
        (filter (fun r => run_user_id r = user_id /\
                          run_status r = RunStatus_awarded) (runs db))
  <-> exists r, r ∈ runs db /\ run_user_id r = user_id /\
                run_status r = RunStatus_awarded /\ created_at r = Some t.
Proof.
  rewrite list_elem_of_omap. split.
  - intros (r & Hr & Et). apply list_elem_of_filter in Hr.
    destruct Hr as [(Hu & Hs) Hin]. eauto.
  - intros (r & Hin & Hu & Hs & Et). exists r. split; [|exact Et].
    apply list_elem_of_filter. auto.
Qed.

Lemma last_activity_cases (db : DB) (user_id : Z) :
  (get_last_activity_at db user_id = None <->
   forall t, ~ activity_time db user_id t) /\
  (forall t, get_last_activity_at db user_id = Some t ->
             activity_time db user_id t /\
             forall t', activity_time db user_id t' -> (t' <= t)%N).
Proof.
  unfold get_last_activity_at, activity_time.
  pose proof (sql_max_spec
                (omap ended_at
                   (filter (fun c => checkin_user_id c = user_id /\
                                     checkin_status c ∈ _valid_checkin_statuses /\
                                     ended_at c <> None) (checkins db)))) as Sc.
  pose proof (sql_max_spec
                (omap created_at
                   (filter (fun r => run_user_id r = user_id /\
                                     run_status r = RunStatus_awarded)
                           (runs db)))) as Sr.
  pose proof (checkin_times db user_id) as Mc.
  pose proof (run_times db user_id) as Mr.
  destruct (sql_max _) as [mc|]; destruct (sql_max _) as [mr|]; simpl.
  - destruct Sc as [Hc Bc], Sr as [Hr Br]. split.
    + split; [discriminate|]. intros N. exfalso. apply (N mc). left.
      apply Mc, Hc.
    + intros t [= <-]. split.
      * destruct (N.max_spec mc mr) as [[_ ->]|[_ ->]].
        -- right. apply Mr, Hr.
        -- left. apply Mc, Hc.
      * intros t' [Ht'|Ht'].
        -- apply Mc in Ht'. specialize (Bc _ Ht'). lia.
        -- apply Mr in Ht'. specialize (Br _ Ht'). lia.
  - destruct Sc as [Hc Bc]. split.
    + split; [discriminate|]. intros N. exfalso. apply (N mc). left.
      apply Mc, Hc.
    + intros t [= <-]. split; [left; apply Mc, Hc|].
      intros t' [Ht'|Ht'].
      * apply Mc in Ht'. apply Bc, Ht'.
      * apply Mr in Ht'. rewrite Sr in Ht'. inversion Ht'.
  - destruct Sr as [Hr Br]. split.
    + split; [discriminate|]. intros N. exfalso. apply (N mr). right.
      apply Mr, Hr.
    + intros t [= <-]. split; [right; apply Mr, Hr|].
      intros t' [Ht'|Ht'].
      * apply Mc in Ht'. rewrite Sc in Ht'. inversion Ht'.
      * apply Mr in Ht'. apply Br, Ht'.
  - split.
    + split; [|reflexivity]. intros _ t [Ht|Ht].
      * apply Mc in Ht. rewrite Sc in Ht. inversion Ht.
      * apply Mr in Ht. rewrite Sr in Ht. inversion Ht.
    + intros t [=].
Qed.

(** [get_last_activity_at] is [None] exactly for an account with no
    check-in of a valid status that has ended and no awarded run;
    otherwise it is one of those end and creation times and none of them
    is later. *)
Theorem get_last_activity_at_spec (db : DB) (user_id : Z) :
  (get_last_activity_at db user_id = None <->
   forall t, ~ activity_time db user_id t) /\
  (forall t, get_last_activity_at db user_id = Some t ->
             activity_time db user_id t /\
             forall t', activity_time db user_id t' -> (t' <= t)%N).
Proof. exact (last_activity_cases db user_id). Qed.

End ActivityFacts.

Section StatusClaims.
Import Streak Status.
Context `{Economy}.

Lemma weekly_count_returns (db : DB) (now : datetime) (user_id : Z) :
  (now <= datetime_max)%N -> Z.pos (date_of now) <= 3652054 ->
  exists n, get_weekly_activity_count db now user_id = Return n /\ 0 <= n.
Proof.
  intros Hmax Hd. unfold get_weekly_activity_count.
  destruct (week_range_cases now Hmax) as [Hret _].
  destruct (Hret Hd) as (ws & we & -> & _).
  eexists. split; [reflexivity|]. lia.
Qed.

(** The pet is normal for an account with no activity.  It is weak
    exactly when the account has activity and every check-in end and
    awarded run lies at least four calendar days before the clock's date,
    whatever the week's count.  It is strong exactly when some activity
    is less than four days old and the week counts at least three.  While
    the week of the clock is within the calendar the call returns one of
    the three labels. *)
Theorem calc_chicken_status_spec (db : DB) (now now_week : datetime)
    (user_id : Z) :
  let r := calc_chicken_status db now now_week user_id in
  ((forall t, ~ activity_time db user_id t) -> r = Return "normal"%string) /\
  (r = Return "weak"%string <->
   (exists t, activity_time db user_id t) /\
   forall t, activity_time db user_id t ->
             WEAK_AFTER_DAYS <= Z.pos (date_of now) - Z.pos (date_of t)) /\
  (r = Return "strong"%string <->
   (exists t, activity_time db user_id t /\
              Z.pos (date_of now) - Z.pos (date_of t) < WEAK_AFTER_DAYS) /\
   exists n, get_weekly_activity_count db now_week user_id = Return n /\
             STRONG_WEEKLY_COUNT <= n) /\
  ((now_week <= datetime_max)%N -> Z.pos (date_of now_week) <= 3652054 ->
   r = Return "normal"%string \/ r = Return "weak"%string
   \/ r = Return "strong"%string).
Proof.
  intros r. subst r. unfold calc_chicken_status.
  destruct (last_activity_cases db user_id) as [Hnone Hsome].
  destruct (get_last_activity_at db user_id) as [last|].
  - destruct (Hsome last eq_refl) as [Hact Hmax]. clear Hsome.
    assert (Hdays : forall t, activity_time db user_id t ->
                              Z.pos (date_of t) <= Z.pos (date_of last)).
    { intros t Ht. apply date_of_mono, Hmax, Ht. }
    destruct (Z.leb_spec WEAK_AFTER_DAYS
                (Z.pos (date_of now) - Z.pos (date_of last))) as [L|L].
    + split; [|split; [|split]].
      * intros N. destruct (N last Hact).
      * split; [|reflexivity]. intros _. split; [eauto|].
        intros t Ht. specialize (Hdays t Ht). lia.
      * split; [discriminate|].
        intros [(t & Ht & Hlt) _]. specialize (Hdays t Ht). lia.
      * intros _ _. right. left. reflexivity.
    + split; [|split; [|split]].
      * intros N. destruct (N last Hact).
      * split.
        -- destruct (get_weekly_activity_count db now_week user_id) as [n|e];
             [|discriminate].
           destruct (STRONG_WEEKLY_COUNT <=? n); discriminate.
        -- intros [_ Hall]. specialize (Hall last Hact). lia.
      * destruct (get_weekly_activity_count db now_week user_id) as [n|e].
        -- destruct (Z.leb_spec STRONG_WEEKLY_COUNT n) as [Ln|Ln].
           ++ split; [|reflexivity]. intros _. split; eauto.
           ++ split; [discriminate|].
              intros [_ (n' & [= <-] & Hn')]. lia.
        -- split; [discriminate|]. intros [_ (n' & [=] & _)].
      * intros Hm Hd.
        destruct (weekly_count_returns db now_week user_id Hm Hd) as (n & -> & _).
        destruct (STRONG_WEEKLY_COUNT <=? n); auto.
  - assert (Hno : forall t, ~ activity_time db user_id t)
      by (apply Hnone; reflexivity).
    split; [|split; [|split]].
    + reflexivity.
    + split; [discriminate|]. intros [(t & Ht) _]. destruct (Hno t Ht).
    + split; [discriminate|]. intros [(t & Ht & _) _]. destruct (Hno t Ht).
    + intros _ _. left. reflexivity.
Qed.

Lemma fold_dates_spec (l : list (option datetime)) (acc : gset date) (d : date) :
  d ∈ fold_left (fun acc dt => match dt with
                               | Some t => acc ∪ {[ date_of t ]}
                               | None => acc
                               end) l acc
  <-> d ∈ acc \/ exists t, Some t ∈ l /\ date_of t = d.
Proof.
  revert acc. induction l as [|x l IH]; intros acc; simpl.
  - split; [auto|]. intros [Hd|(t & Ht & _)]; [exact Hd|inversion Ht].
  - rewrite IH. split.
    + intros [Hd|(t & Ht & Et)].
      * destruct x as [tx|]; [|auto].
        apply elem_of_union in Hd. destruct Hd as [Hd|Hd]; [auto|].
        apply elem_of_singleton in Hd. right. exists tx.
        split; [apply list_elem_of_here|congruence].
      * right. exists t. split; [apply list_elem_of_further, Ht|exact Et].
    + intros [Hd|(t & Ht & Et)].
      * left. destruct x; [apply elem_of_union; auto|exact Hd].
      * apply elem_of_cons in Ht. destruct Ht as [<-|Ht].
        -- left. apply elem_of_union. right. apply elem_of_singleton. auto.
        -- right. eauto.
Qed.

Lemma activity_dates_cases (db : DB) (user_id : Z) (d : date) :
  d ∈ get_all_activity_dates db user_id <->
  exists t, activity_start db user_id t /\ date_of t = d.
Proof.
  unfold get_all_activity_dates, activity_start.
  rewrite !fold_dates_spec. split.
  - intros [[He|(t & Ht & Et)]|(t & Ht & Et)].
    + destruct (not_elem_of_empty (C := gset date) _ He).
    + apply list_elem_of_fmap in Ht. destruct Ht as (c & Ec & Hc).
      apply list_elem_of_filter in Hc. destruct Hc as [(Hu & Hs) Hin].
      exists t. split; [|exact Et]. left. exists c. auto.
    + apply list_elem_of_fmap in Ht. destruct Ht as (r & Er & Hr).
      apply list_elem_of_filter in Hr. destruct Hr as [(Hu & Hs) Hin].
      exists t. split; [|exact Et]. right. exists r. auto.
  - intros (t & [(c & Hin & Hu & Hs & Ec)|(r & Hin & Hu & Hs & Er)] & Et).
    + left. right. exists t. split; [|exact Et].
      rewrite <- Ec. apply list_elem_of_fmap_2.
      apply list_elem_of_filter. auto.
    + right. exists t. split; [|exact Et].
      rewrite <- Er. apply list_elem_of_fmap_2.
      apply list_elem_of_filter. auto.
Qed.

(** [get_all_activity_dates] holds exactly the dates of the start times
    of the account's check-ins of a valid status and of the creation
    times of its awarded runs; rows without a timestamp, of another
    status or of another account add nothing. *)
Theorem get_all_activity_dates_spec (db : DB) (user_id : Z) (d : date) :
  d ∈ get_all_activity_dates db user_id <->
  exists t, activity_start db user_id t /\ date_of t = d.
Proof. exact (activity_dates_cases db user_id d). Qed.

End StatusClaims.

Section StreakMore.
Import Streak.

Lemma calc_current_streak_Return (today : date) (activity_dates : gset date)
    (n : Z) :
  calc_current_streak today activity_dates = Some (Return n) ->
  is_streak today activity_dates n.
Proof.
  unfold calc_current_streak, is_streak, days_before.
  destruct (decide (activity_dates = ∅)) as [E|NE].
  - intros [= <-]. repeat split; [lia|lia|].
    rewrite Z.sub_0_r, active_pos, E. apply not_elem_of_empty.
  - destruct (while_loop_spec activity_dates today (Pos.to_nat today) 0 (le_n _))
      as [(m & Hm & Eq & Hact & Hstop)|[Eq _]]; rewrite Eq.
    + intros [= <-]. rewrite Z.add_0_l. repeat split; [lia|exact Hact|exact Hstop].
    + discriminate.
Qed.

(** A streak is never longer than the number of active dates, and it is
    positive exactly when today is one of them. *)
Theorem streak_bounded (today : date) (activity_dates : gset date) (n : Z) :
  calc_current_streak today activity_dates = Some (Return n) ->
  0 <= n <= Z.of_nat (size activity_dates) /\
  (0 < n <-> today ∈ activity_dates).
Proof.
  intros E. apply calc_current_streak_Return in E.
  destruct E as (Hn & Hact & Hstop). unfold days_before in *.
  split; [split; [exact Hn|]|].
  - set (day := fun i : nat => Z.to_pos (Z.pos today - Z.of_nat i)).
    assert (Hday : forall i : nat, (i < Z.to_nat n)%nat ->
                                   day i ∈ activity_dates /\
                                   Z.pos (day i) = Z.pos today - Z.of_nat i).
    { intros i Hi. destruct (Hact (Z.of_nat i) ltac:(lia)) as (d & Ed & Hd).
      assert (day i = d) by (unfold day; rewrite <- Ed; apply Pos2Z.id).
      subst d. auto. }
    assert (ND : NoDup (day <$> seq 0 (Z.to_nat n))).
    { apply NoDup_fmap_2_strong; [|apply NoDup_seq].
      intros i j Hi Hj Eij. apply elem_of_seq in Hi, Hj.
      destruct (Hday i ltac:(lia)) as [_ Ei].
      destruct (Hday j ltac:(lia)) as [_ Ej].
      rewrite Eij in Ei. lia. }
    assert (Sub : list_to_set (day <$> seq 0 (Z.to_nat n)) ⊆ activity_dates).
    { intros d Hd. apply elem_of_list_to_set, list_elem_of_fmap in Hd.
      destruct Hd as (i & -> & Hi). apply elem_of_seq in Hi.
      apply Hday. lia. }
    apply subseteq_size in Sub.
    rewrite size_list_to_set, length_fmap, length_seq in Sub by exact ND.
    lia.
  - split.
    + intros Hpos. apply active_pos.
      replace (Z.pos today) with (Z.pos today - 0) by lia. apply Hact. lia.
    + intros Hin. destruct (decide (n = 0)) as [->|N0]; [|lia].
      destruct Hstop. rewrite Z.sub_0_r. apply active_pos, Hin.
Qed.

(** More activity never shortens the streak. *)
Theorem streak_monotone (today : date) (dates dates' : gset date) (n n' : Z) :
  dates ⊆ dates' ->
  calc_current_streak today dates = Some (Return n) ->
  calc_current_streak today dates' = Some (Return n') ->
  n <= n'.
Proof.
  intros Sub E E'.
  apply calc_current_streak_Return in E, E'.
  destruct E as (Hn & Hact & _), E' as (Hn' & _ & Hstop').
  destruct (Z.le_gt_cases n n') as [L|L]; [exact L|].
  destruct Hstop'. destruct (Hact n' ltac:(lia)) as (d & Ed & Hd).
  exists d. split; [exact Ed|]. apply Sub, Hd.
Qed.

End StreakMore.

Section AccountFacts.
Import Streak Status.
Context `{Economy}.

Lemma filter_and {X : Type} (P Q : X -> Prop)
    `{!forall x, Decision (P x)} `{!forall x, Decision (Q x)} (l : list X) :
  filter (fun x => P x /\ Q x) l = filter Q (filter P l).
Proof.
  induction l as [|x l IH]; [reflexivity|].
  rewrite !filter_cons.
  destruct (decide (P x /\ Q x)) as [[HP HQ]|N], (decide (P x)) as [HP'|NP'].
  - rewrite filter_cons. destruct (decide (Q x)); [|contradiction].
    rewrite IH. reflexivity.
  - contradiction.
  - rewrite filter_cons. destruct (decide (Q x)) as [HQ|_]; [|exact IH].
    destruct N. auto.
  - exact IH.
Qed.

(** The streak of an account, computed from its activity dates, is
    positive exactly when the account has a check-in of a valid status
    started on the clock's date or an awarded run created on it. *)
Theorem account_streak_positive (db : DB) (now : datetime) (user_id : Z)
    (n : Z) :
  calc_current_streak (date_of now) (get_all_activity_dates db user_id)
  = Some (Return n) ->
  (0 < n <->
   exists t, activity_start db user_id t /\ date_of t = date_of now).
Proof.
  intros E. apply calc_current_streak_Return in E.
  destruct E as (Hn & Hact & Hstop). unfold days_before in *.
  rewrite <- activity_dates_cases. split.
  - intros Hpos. apply active_pos.
    replace (Z.pos (date_of now)) with (Z.pos (date_of now) - 0) by lia.
    apply Hact. lia.
  - intros Hin. destruct (decide (n = 0)) as [->|N0]; [|lia].
    destruct Hstop. rewrite Z.sub_0_r. apply active_pos, Hin.
Qed.

(** Accounts do not affect each other: the status, the weekly count, the
    last activity and the activity dates of an account are the same on
    any two stores that hold the same check-ins and runs of that
    account. *)
Theorem status_depends_on_own_rows (db db' : DB) (user_id : Z) :
  filter (fun c => checkin_user_id c = user_id) (checkins db)
  = filter (fun c => checkin_user_id c = user_id) (checkins db') ->
  filter (fun r => run_user_id r = user_id) (runs db)
  = filter (fun r => run_user_id r = user_id) (runs db') ->
  get_last_activity_at db user_id = get_last_activity_at db' user_id /\
  get_all_activity_dates db user_id = get_all_activity_dates db' user_id /\
  (forall now, get_weekly_activity_count db now user_id
               = get_weekly_activity_count db' now user_id) /\
  (forall now now_week,
      calc_chicken_status db now now_week user_id
      = calc_chicken_status db' now now_week user_id).
Proof.
  intros Ec Er.
  assert (E1 : get_last_activity_at db user_id
               = get_last_activity_at db' user_id).
  { unfold get_last_activity_at.
    rewrite !(filter_and (fun c => checkin_user_id c = user_id)).
    rewrite !(filter_and (fun r => run_user_id r = user_id)).
    rewrite Ec, Er. reflexivity. }
  assert (E2 : forall now, get_weekly_activity_count db now user_id
                           = get_weekly_activity_count db' now user_id).
  { intros now. unfold get_weekly_activity_count.
    destruct (get_week_range_utc now) as [[ws we]|e]; [|reflexivity].
    rewrite !(filter_and (fun c => checkin_user_id c = user_id)).
    rewrite !(filter_and (fun r => run_user_id r = user_id)).
    rewrite Ec, Er. reflexivity. }
  split; [exact E1|]. split; [|split; [exact E2|]].
  - unfold get_all_activity_dates.
    rewrite !(filter_and (fun c => checkin_user_id c = user_id)).
    rewrite !(filter_and (fun r => run_user_id r = user_id)).
    rewrite Ec, Er. reflexivity.
  - intros now now_week. unfold calc_chicken_status.
    rewrite E1, E2. reflexivity.
Qed.

End AccountFacts.

Section StatusWitnesses.
Import Streak Status Sample.

Lemma noon_in_range : (noon 739923 <= datetime_max)%N.
Proof. apply N.leb_le. vm_compute. reflexivity. Qed.

Lemma date_of_noon : date_of (noon 739923) = 739923%positive.
Proof. vm_compute. reflexivity. Qed.

Lemma get_week_range_utc_spec_witness :
  exists week_start week_end,
    get_week_range_utc (noon 739923) = Return (week_start, week_end) /\
    (week_start <= noon 739923)%N /\ (noon 739923 < week_end)%N /\
    week_end = (week_start + 7 * day_us)%N /\
    week_start = midnight (date_of week_start) /\
    weekday (date_of week_start) = 0.
Proof.
  apply (get_week_range_utc_spec (noon 739923) noon_in_range).
  rewrite date_of_noon. lia.
Defined.

Lemma get_last_activity_at_spec_witness :
  activity_time activity_db 7 (noon 739923) /\
  forall t', activity_time activity_db 7 t' -> (t' <= noon 739923)%N.
Proof.
  destruct (get_last_activity_at_spec activity_db 7) as [_ W].
  apply W. vm_compute. reflexivity.
Defined.

Lemma calc_chicken_status_spec_witness :
  let r := calc_chicken_status activity_db (noon 739923) (noon 739923) 8 in
  r = Return "normal"%string \/ r = Return "weak"%string
  \/ r = Return "strong"%string.
Proof.
  destruct (calc_chicken_status_spec activity_db (noon 739923) (noon 739923) 8)
    as (_ & _ & _ & W).
  apply W; [exact noon_in_range|]. rewrite date_of_noon. lia.
Defined.

Lemma streak_bounded_witness :
  let dates : gset date := {[ 739923; 739922; 739920 ]}%positive in
  0 <= 2 <= Z.of_nat (size dates) /\ (0 < 2 <-> 739923%positive ∈ dates).
Proof.
  intros dates. apply (streak_bounded 739923%positive dates 2).
  vm_compute. reflexivity.
Defined.

Lemma streak_monotone_witness : 1 <= 3.
Proof.
  apply (streak_monotone 739923%positive
           ({[ 739923; 739921 ]}%positive : gset date)
           ({[ 739923; 739922; 739921 ]}%positive : gset date) 1 3).
  - apply (bool_decide_unpack _). vm_compute. exact I.
  - vm_compute. reflexivity.
  - vm_compute. reflexivity.
Defined.

Lemma account_streak_positive_witness :
  0 < 2 <->
  exists t, activity_start activity_db 7 t /\ date_of t = date_of (noon 739923).
Proof.
  apply (account_streak_positive activity_db (noon 739923) 7 2).
  vm_compute. reflexivity.
Defined.

Lemma status_depends_on_own_rows_witness :
  let db' := mkDB (checkins activity_db)
                  (runs activity_db ++ [mkRun 8 run_awarded (Some (noon 739923))]) in
  get_last_activity_at activity_db 7 = get_last_activity_at db' 7 /\
  get_all_activity_dates activity_db 7 = get_all_activity_dates db' 7 /\
  (forall now, get_weekly_activity_count activity_db now 7
               = get_weekly_activity_count db' now 7) /\
  (forall now now_week,
      calc_chicken_status activity_db now now_week 7
      = calc_chicken_status db' now now_week 7).
Proof.
  intros db'. apply (status_depends_on_own_rows activity_db db' 7).
  - vm_compute. reflexivity.
  - vm_compute. reflexivity.
Defined.

End StatusWitnesses.

(** ** The normalised email *)

Section EmailFacts.

Lemma lower_char_idem (c : ascii) : Py.lower_char (Py.lower_char c) = Py.lower_char c.
Proof. destruct c as [[] [] [] [] [] [] [] []]; reflexivity. Qed.

Lemma isspace_lower_char (c : ascii) : Py.isspace (Py.lower_char c) = Py.isspace c.
Proof. destruct c as [[] [] [] [] [] [] [] []]; reflexivity. Qed.

Lemma lower_idem (s : string) : Py.lower (Py.lower s) = Py.lower s.
Proof.
  induction s as [|c s IH]; [reflexivity|].
  simpl. rewrite lower_char_idem, IH. reflexivity.
Qed.

Lemma lower_lstrip (s : string) : Py.lower (Py.lstrip s) = Py.lstrip (Py.lower s).
Proof.
  induction s as [|c s IH]; [reflexivity|].
  cbn [Py.lstrip Py.lower]. rewrite isspace_lower_char.
  destruct (Py.isspace c); [exact IH|reflexivity].
Qed.

Lemma lower_rstrip (s : string) : Py.lower (Py.rstrip s) = Py.rstrip (Py.lower s).
Proof.
  induction s as [|c s IH]; [reflexivity|].
  cbn [Py.rstrip Py.lower]. rewrite <- IH, isspace_lower_char.
  destruct (Py.rstrip s); simpl; [destruct (Py.isspace c)|]; reflexivity.
Qed.

Lemma rstrip_idem (s : string) : Py.rstrip (Py.rstrip s) = Py.rstrip s.
Proof.
  induction s as [|c s IH]; [reflexivity|].
  cbn [Py.rstrip]. destruct (Py.rstrip s) as [|c' r] eqn:E.
  - destruct (Py.isspace c) eqn:Ec; [reflexivity|].
    cbn [Py.rstrip]. rewrite Ec. reflexivity.
  - cbn [Py.rstrip]. cbn [Py.rstrip] in IH.
    destruct (Py.rstrip r) as [|c'' r'] eqn:E'.
    + destruct (Py.isspace c'); [discriminate IH|]. rewrite IH. reflexivity.
    + rewrite IH. reflexivity.
Qed.

(** What [rstrip] leaves begins as the string did. *)
Lemma rstrip_head (c : ascii) (s : string) :
  Py.isspace c = false -> exists r, Py.rstrip (String c s) = String c r.
Proof.
  intros Ec. cbn [Py.rstrip]. destruct (Py.rstrip s); [rewrite Ec|]; eauto.
Qed.

Lemma lstrip_head (s : string) :
  Py.lstrip s = EmptyString
  \/ exists c r, Py.lstrip s = String c r /\ Py.isspace c = false.
Proof.
  induction s as [|c s IH]; [left; reflexivity|].
  cbn [Py.lstrip]. destruct (Py.isspace c) eqn:Ec; [exact IH|].
  right. eauto.
Qed.

Lemma strip_idem (s : string) : Py.strip (Py.strip s) = Py.strip s.
Proof.
  unfold Py.strip. destruct (lstrip_head s) as [->|(c & r & -> & Ec)].
  - reflexivity.
  - destruct (rstrip_head c r Ec) as [r' Er]. rewrite Er.
    cbn [Py.lstrip]. rewrite Ec, <- Er. apply rstrip_idem.
Qed.

(** The email the login stores is in normal form: normalising it again,
    as a later login with the stored spelling does, changes nothing. *)
Theorem normalised_email_stable (e : string) :
  Py.strip (Py.lower (Py.strip (Py.lower e))) = Py.strip (Py.lower e).
Proof.
  unfold Py.strip at 2. rewrite lower_rstrip, lower_lstrip, lower_idem.
  fold (Py.strip (Py.lower e)). apply strip_idem.
Qed.

End EmailFacts.
